(** * Local image generator (Projects/ImageGenerator.py): a shallow embedding

    Strings are ASCII strings; the Python whitespace set restricted to
    ASCII is the one [str.split] and [str.strip] use.  Float arithmetic
    is modelled by the real numbers.  Randomness, exceptions, printed
    messages and file writes are threaded through a small monad [M]. *)

From Stdlib Require Import ZArith Lia List String Ascii Bool.
From Stdlib Require Import Reals Lra Psatz.
From Stdlib Require Import Numbers.DecimalString.
Import ListNotations.

Open Scope Z_scope.

(* ------------------------------------------------------------------ *)
(** ** Python strings *)

Module PyStr.

Local Open Scope char_scope.

(** [str.isspace] on ASCII: space, \t, \n, \x0b, \x0c, \r, \x1c .. \x1f. *)
Definition is_space (c : ascii) : bool :=
  let n := nat_of_ascii c in
  (n =? 32)%nat || ((9 <=? n)%nat && (n <=? 13)%nat)
  || ((28 <=? n)%nat && (n <=? 31)%nat).

Definition lower_char (c : ascii) : ascii :=
  let n := nat_of_ascii c in
  if ((65 <=? n)%nat && (n <=? 90)%nat) then ascii_of_nat (n + 32) else c.

Definition upper_char (c : ascii) : ascii :=
  let n := nat_of_ascii c in
  if ((97 <=? n)%nat && (n <=? 122)%nat) then ascii_of_nat (n - 32) else c.

Fixpoint map_str (f : ascii -> ascii) (s : string) : string :=
  match s with
  | EmptyString => EmptyString
  | String c s' => String (f c) (map_str f s')
  end.

(** [s.lower()] and [s.upper()]. *)
Definition lower (s : string) : string := map_str lower_char s.
Definition upper (s : string) : string := map_str upper_char s.

Fixpoint is_prefix (p s : string) : bool :=
  match p, s with
  | EmptyString, _ => true
  | String c p', String d s' => Ascii.eqb c d && is_prefix p' s'
  | String _ _, EmptyString => false
  end.

(** [needle in hay]. *)
Fixpoint contains (needle hay : string) : bool :=
  is_prefix needle hay ||
  match hay with
  | EmptyString => false
  | String _ hay' => contains needle hay'
  end.

(** [s.split()]: maximal runs of non-whitespace, in order. *)
Fixpoint split_acc (cur : string) (s : string) : list string :=
  match s with
  | EmptyString => if String.eqb cur "" then [] else [cur]
  | String c s' =>
      if is_space c then
        (if String.eqb cur "" then [] else [cur]) ++ split_acc "" s'
      else split_acc (cur ++ String c EmptyString) s'
  end.

Definition split (s : string) : list string := split_acc "" s.

(** [sep.join(ws)]. *)
Fixpoint join (sep : string) (ws : list string) : string :=
  match ws with
  | [] => ""
  | [w] => w
  | w :: ws' => w ++ sep ++ join sep ws'
  end.

Fixpoint lstrip (s : string) : string :=
  match s with
  | EmptyString => EmptyString
  | String c s' => if is_space c then lstrip s' else s
  end.

Fixpoint rev_str (s : string) : string :=
  match s with
  | EmptyString => EmptyString
  | String c s' => rev_str s' ++ String c EmptyString
  end.

(** [s.strip()]. *)
Definition strip (s : string) : string := rev_str (lstrip (rev_str (lstrip s))).

(** [s[i:j]] for [0 <= i <= j]: Python clamps out-of-range slices. *)
Definition slice (i j : nat) (s : string) : string := substring i (j - i) s.

Definition Z_to_string (z : Z) : string := NilEmpty.string_of_int (Z.to_int z).

End PyStr.

(** [int(s, 16)]: surrounding whitespace, an optional sign, an optional
    [0x] prefix (optionally followed by one underscore), then hex digits
    with single underscores between digits. *)
Module PyInt.
Import PyStr.

Definition hex_val (c : ascii) : option Z :=
  let n := Z.of_nat (nat_of_ascii c) in
  if (48 <=? n) && (n <=? 57) then Some (n - 48)
  else if (97 <=? n) && (n <=? 102) then Some (n - 87)
  else if (65 <=? n) && (n <=? 70) then Some (n - 55)
  else None.

Fixpoint digits_acc (acc : Z) (prev_us : bool) (s : string) : option Z :=
  match s with
  | EmptyString => if prev_us then None else Some acc
  | String c s' =>
      if Ascii.eqb c "_"%char then (if prev_us then None else digits_acc acc true s')
      else match hex_val c with
           | Some v => digits_acc (acc * 16 + v) false s'
           | None => None
           end
  end.

Definition parse_digits (s : string) : option Z :=
  match s with
  | EmptyString => None
  | String c _ => if Ascii.eqb c "_"%char then None else digits_acc 0 false s
  end.

Definition parse_unsigned (t : string) : option Z :=
  match t with
  | String "0"%char (String x t2) =>
      if Ascii.eqb x "x"%char || Ascii.eqb x "X"%char then
        match t2 with
        | String "_"%char t3 => parse_digits t3
        | _ => parse_digits t2
        end
      else parse_digits t
  | _ => parse_digits t
  end.

Definition int16 (s : string) : option Z :=
  match strip s with
  | String "+"%char t => parse_unsigned t
  | String "-"%char t => option_map Z.opp (parse_unsigned t)
  | t => parse_unsigned t
  end.

End PyInt.

(* ------------------------------------------------------------------ *)
(** ** Rasters, events and the effect monad *)

Record rgba := mkRGBA { cr : Z; cg : Z; cb : Z; ca : Z }.

(** An RGB image stores its pixels with alpha 255. *)
Definition rgb (r g b : Z) : rgba := mkRGBA r g b 255.

Inductive mode := RGB | RGBA.

Record raster := mkRaster {
  width : Z; height : Z; imode : mode; px : Z -> Z -> rgba }.

Definition in_bounds (img : raster) (x y : Z) : bool :=
  (0 <=? x) && (x <? width img) && (0 <=? y) && (y <? height img).

Inductive exn :=
  | ZeroDivisionError | IndexError | ValueError | KeyError
  | UnboundLocalError | OSError | FilterError.

Inductive res (A : Type) := Ok (a : A) | Err (e : exn).
Arguments Ok {A} a.
Arguments Err {A} e.

(** The outside world the generator reads: the stream of raw values
    behind [random] and the wall clock used for file names. *)
Record World := mkWorld { rng : nat -> Z; clock : string }.

Inductive event :=
  | EvPrint (msg : string)
  | EvSave (path : string) (img : raster).

Record Out (A : Type) := mkOut { out_res : res A; out_world : World; out_log : list event }.
Arguments mkOut {A} _ _ _.
Arguments out_res {A} _.
Arguments out_world {A} _.
Arguments out_log {A} _.

Definition M (A : Type) : Type := World -> Out A.

Definition ret {A} (x : A) : M A := fun w => mkOut (Ok x) w [].
Definition raise {A} (e : exn) : M A := fun w => mkOut (Err e) w [].

Definition bind {A B} (m : M A) (f : A -> M B) : M B := fun w =>
  match m w with
  | mkOut (Ok x) w1 l1 =>
      let o := f x w1 in mkOut (out_res o) (out_world o) (l1 ++ out_log o)
  | mkOut (Err e) w1 l1 => mkOut (Err e) w1 l1
  end.

Notation "x <- m ;; k" := (bind m (fun x => k))
  (at level 61, m at next level, right associativity).
Notation "' p <- m ;; k" := (bind m (fun x => match x with p => k end))
  (at level 61, p pattern, m at next level, right associativity).
Notation "m ;;; k" := (bind m (fun _ => k)) (at level 61, right associativity).

Definition print (s : string) : M unit := fun w => mkOut (Ok tt) w [EvPrint s].

(** [try: m except Exception: h]. *)
Definition try_except {A} (m : M A) (h : exn -> M A) : M A := fun w =>
  match m w with
  | mkOut (Ok x) w1 l1 => mkOut (Ok x) w1 l1
  | mkOut (Err e) w1 l1 =>
      let o := h e w1 in mkOut (out_res o) (out_world o) (l1 ++ out_log o)
  end.

Definition lift_opt {A} (e : exn) (o : option A) : M A :=
  match o with Some x => ret x | None => raise e end.

(** [random]: each call to [_randbelow(n)] takes the next raw value of
    the stream, reduced modulo [n].  Every sequence of outcomes of the
    real generator is produced by some stream (the stream of those
    outcomes), and every stream produces outcomes in range. *)
Definition draw : M Z := fun w =>
  mkOut (Ok (rng w 0%nat)) (mkWorld (fun n => rng w (S n)) (clock w)) [].

Definition randbelow (n : Z) : M Z :=
  if n <=? 0 then raise ValueError else (v <- draw ;; ret (v mod n)).

(** [random.choice(seq)]. *)
Definition choice {A} (xs : list A) : M A :=
  match xs with
  | [] => raise IndexError
  | _ => i <- randbelow (Z.of_nat (List.length xs)) ;;
         lift_opt IndexError (nth_error xs (Z.to_nat i))
  end.

(** [random.randint(a, b)]. *)
Definition randint (a b : Z) : M Z :=
  if b <? a then raise ValueError else (i <- randbelow (b - a + 1) ;; ret (a + i)).

(* ------------------------------------------------------------------ *)
(** ** The colour-theme catalog and [detect_theme] *)

Module Theme.
Import PyStr.
Local Open Scope string_scope.

(** [self.color_themes]; a dict literal, so iteration follows this order. *)
Definition color_themes : list (string * list string) := [
  ("nature", ["#228B22"; "#32CD32"; "#90EE90"; "#006400"; "#8FBC8F"]);
  ("ocean",  ["#006994"; "#4682B4"; "#87CEEB"; "#1E90FF"; "#00CED1"]);
  ("sunset", ["#FF6347"; "#FF8C00"; "#FFD700"; "#FF69B4"; "#DC143C"]);
  ("space",  ["#191970"; "#4B0082"; "#8B008B"; "#9400D3"; "#000080"]);
  ("forest", ["#228B22"; "#006400"; "#8B4513"; "#2E8B57"; "#556B2F"]);
  ("city",   ["#696969"; "#2F4F4F"; "#708090"; "#778899"; "#A9A9A9"]);
  ("fire",   ["#FF4500"; "#FF6347"; "#FF8C00"; "#FFD700"; "#DC143C"]);
  ("ice",    ["#B0E0E6"; "#87CEEB"; "#ADD8E6"; "#E0FFFF"; "#F0F8FF"]);
  ("magic",  ["#9370DB"; "#BA55D3"; "#DA70D6"; "#EE82EE"; "#DDA0DD"]);
  ("retro",  ["#FF1493"; "#00FFFF"; "#FFFF00"; "#FF69B4"; "#00FF00"])].

(** [theme_keywords] of [detect_theme]. *)
Definition theme_keywords : list (string * list string) := [
  ("nature", ["tree"; "grass"; "plant"; "garden"; "nature"; "leaf"]);
  ("ocean",  ["ocean"; "sea"; "water"; "wave"; "beach"; "blue"]);
  ("sunset", ["sunset"; "dawn"; "orange"; "warm"; "golden"]);
  ("space",  ["space"; "star"; "galaxy"; "cosmic"; "universe"; "nebula"]);
  ("forest", ["forest"; "wood"; "jungle"; "tree"; "green"]);
  ("city",   ["city"; "urban"; "building"; "street"; "skyscraper"]);
  ("fire",   ["fire"; "flame"; "hot"; "red"; "burning"]);
  ("ice",    ["ice"; "cold"; "frozen"; "winter"; "snow"]);
  ("magic",  ["magic"; "mystical"; "fantasy"; "enchanted"; "wizard"]);
  ("retro",  ["retro"; "neon"; "cyberpunk"; "80s"; "synthwave"])].

Fixpoint lookup {A} (k : string) (m : list (string * A)) : option A :=
  match m with
  | [] => None
  | (k', v) :: m' => if String.eqb k k' then Some v else lookup k m'
  end.

(** [sum(1 for keyword in keywords if keyword in prompt_lower)]. *)
Definition keyword_score (keywords : list string) (prompt_lower : string) : Z :=
  Z.of_nat (List.length (filter (fun kw => contains kw prompt_lower) keywords)).

(** The [theme_scores] dict built by the loop: themes with a positive
    score, in catalog order. *)
Fixpoint theme_scores (tk : list (string * list string)) (prompt_lower : string)
  : list (string * Z) :=
  match tk with
  | [] => []
  | (theme, keywords) :: tk' =>
      let score := keyword_score keywords prompt_lower in
      if (0 <? score)%Z then (theme, score) :: theme_scores tk' prompt_lower
      else theme_scores tk' prompt_lower
  end.

(** [max(items, key=lambda x: x[1])]: the running maximum is replaced
    only by a strictly larger key, so the first maximal item wins. *)
Definition py_max_by_score (x : string * Z) (xs : list (string * Z)) : string * Z :=
  fold_left (fun best y => if (snd best <? snd y)%Z then y else best) xs x.

Definition detect_theme (prompt : string) : M string :=
  let prompt_lower := lower prompt in
  match theme_scores theme_keywords prompt_lower with
  | x :: xs => ret (fst (py_max_by_score x xs))
  | [] => choice (map fst color_themes)
  end.

(** Every theme's score, in catalog order (used to state properties). *)
Definition all_scores (prompt : string) : list (string * Z) :=
  map (fun '(t, kws) => (t, keyword_score kws (lower prompt))) theme_keywords.

End Theme.

(* ------------------------------------------------------------------ *)
(** ** Colours *)

Module Color.
Import PyStr.

(** [int(x)] on a float: truncation towards zero. *)
Definition py_int (x : R) : Z :=
  if Rle_dec 0 x then Int_part x else - Int_part (- x).

(** [int(c[1:3], 16), int(c[3:5], 16), int(c[5:7], 16)]. *)
Definition hex_rgb (c : string) : M (Z * Z * Z) :=
  r <- lift_opt ValueError (PyInt.int16 (slice 1 3 c)) ;;
  g <- lift_opt ValueError (PyInt.int16 (slice 3 5 c)) ;;
  b <- lift_opt ValueError (PyInt.int16 (slice 5 7 c)) ;;
  ret (r, g, b).

Definition blend_colors (color1 color2 : string) (ratio : R) : M (Z * Z * Z) :=
  '(r1, g1, b1) <- hex_rgb color1 ;;
  '(r2, g2, b2) <- hex_rgb color2 ;;
  let r := py_int (IZR r1 + IZR (r2 - r1) * ratio) in
  let g := py_int (IZR g1 + IZR (g2 - g1) * ratio) in
  let b := py_int (IZR b1 + IZR (b2 - b1) * ratio) in
  ret (r, g, b).

(** A valid colour string: [#] followed by six hex digits. *)
Definition is_hex_digit (c : ascii) : bool :=
  match PyInt.hex_val c with Some _ => true | None => false end.

Definition valid_hex (c : string) : bool :=
  match c with
  | String h (String d1 (String d2 (String d3 (String d4 (String d5 (String d6 EmptyString)))))) =>
      Ascii.eqb h "#"%char && forallb is_hex_digit [d1; d2; d3; d4; d5; d6]
  | _ => false
  end.

End Color.

(* ------------------------------------------------------------------ *)
(** ** The parts of PIL the generator uses *)

Inductive effect := Blur | Sharpen | Emboss | EdgeEnhance | Smooth.

(** What the program takes from PIL without reimplementing it: font
    loading, glyph rasterisation, the rasterisation of ellipses and
    polygons, the convolution filters and the PNG writer.  Every result
    below holds for every such back end. *)
Class PIL := {
  Font : Type;
  (** [ImageFont.truetype("arial.ttf", size)]; [None] when it raises. *)
  truetype : Z -> option Font;
  load_default : Font;
  (** [draw.textbbox((0, 0), text, font=font)]. *)
  text_bbox : Font -> string -> Z * Z * Z * Z;
  (** Is the pixel at offset [(dx, dy)] from the text origin inked? *)
  text_cover : Font -> string -> Z -> Z -> bool;
  (** Pixels covered by [draw.ellipse([x0, y0, x1, y1])]. *)
  ellipse_cover : Z * Z * Z * Z -> Z -> Z -> bool;
  (** Pixels covered by [draw.polygon(points)]. *)
  polygon_cover : list (Z * Z) -> Z -> Z -> bool;
  (** [image.filter(f)]: the filtered pixels, and whether it raises. *)
  filter_px : effect -> raster -> Z -> Z -> rgba;
  filter_fails : effect -> raster -> bool;
  (** Whether [image.save(path)] raises. *)
  save_fails : string -> raster -> bool
}.

Module Img.

Definition opaque (p : rgba) : rgba := mkRGBA (cr p) (cg p) (cb p) 255.

(** [Image.new(mode, (w, h), color)]. *)
Definition new_image (m : mode) (w h : Z) (c : rgba) : M raster :=
  if (w <? 0) || (h <? 0) then raise ValueError
  else ret (mkRaster w h m (fun _ _ => c)).

(** Write colour [c] on every covered pixel inside the image. *)
Definition paint (img : raster) (cover : Z -> Z -> bool) (c : rgba) : raster :=
  mkRaster (width img) (height img) (imode img)
    (fun x y => if in_bounds img x y && cover x y then c else px img x y).

(** [draw.line([(x0, y0), (x1, y1)])] for the axis-parallel lines the
    program draws: both end points included. *)
Definition line (img : raster) (x0 y0 x1 y1 : Z) (c : rgba) : raster :=
  paint img (fun x y => (Z.min x0 x1 <=? x) && (x <=? Z.max x0 x1)
                        && (Z.min y0 y1 <=? y) && (y <=? Z.max y0 y1)) c.

(** [draw.point((x, y))]. *)
Definition point (img : raster) (x0 y0 : Z) (c : rgba) : raster :=
  paint img (fun x y => (x =? x0) && (y =? y0)) c.

(** [draw.rectangle([x0, y0, x1, y1])], corners included; Pillow raises
    when a second corner lies before the first. *)
Definition rectangle (img : raster) (x0 y0 x1 y1 : Z) (c : rgba) : M raster :=
  if (x1 <? x0) || (y1 <? y0) then raise ValueError
  else ret (paint img (fun x y => (x0 <=? x) && (x <=? x1) && (y0 <=? y) && (y <=? y1)) c).

Definition ellipse `{PIL} (img : raster) (x0 y0 x1 y1 : Z) (c : rgba) : M raster :=
  if (x1 <? x0) || (y1 <? y0) then raise ValueError
  else ret (paint img (ellipse_cover (x0, y0, x1, y1)) c).

Definition polygon `{PIL} (img : raster) (pts : list (Z * Z)) (c : rgba) : raster :=
  paint img (polygon_cover pts) c.

Definition text `{PIL} (img : raster) (x0 y0 : Z) (s : string) (c : rgba) (f : Font) : raster :=
  paint img (fun x y => text_cover f s (x - x0) (y - y0)) c.

(** [image.convert(m)]: to RGBA an RGB pixel gets alpha 255; to RGB the
    alpha is dropped. *)
Definition convert (m : mode) (img : raster) : raster :=
  mkRaster (width img) (height img) m
    (fun x y => match m, imode img with
                | RGBA, RGBA => px img x y
                | _, _ => opaque (px img x y)
                end).

Definition shiftfordiv255 (a : Z) : Z := Z.shiftr (Z.shiftr a 8 + a) 8.

(** One pixel of [Image.alpha_composite(dst, src)], after Pillow's
    [ImagingAlphaComposite] (7 bits of precision). *)
Definition composite_px (dst src : rgba) : rgba :=
  if ca src =? 0 then dst
  else
    let blend := ca dst * (255 - ca src) in
    let outa255 := ca src * 255 + blend in
    let coef1 := ca src * 255 * 255 * 128 / outa255 in
    let coef2 := 255 * 128 - coef1 in
    let chan s d := Z.shiftr (shiftfordiv255 (s * coef1 + d * coef2 + Z.shiftl 128 7)) 7 in
    mkRGBA (chan (cr src) (cr dst)) (chan (cg src) (cg dst)) (chan (cb src) (cb dst))
           (shiftfordiv255 (outa255 + 128)).

(** [Image.alpha_composite(dst, src)]: both RGBA and of one size. *)
Definition alpha_composite (dst src : raster) : M raster :=
  match imode dst, imode src with
  | RGBA, RGBA =>
      if (width dst =? width src) && (height dst =? height src) then
        ret (mkRaster (width dst) (height dst) RGBA
               (fun x y => composite_px (px dst x y) (px src x y)))
      else raise ValueError
  | _, _ => raise ValueError
  end.

Definition filter `{PIL} (e : effect) (img : raster) : M raster :=
  if filter_fails e img then raise FilterError
  else ret (mkRaster (width img) (height img) (imode img) (filter_px e img)).

Definition save `{PIL} (path : string) (img : raster) : M unit := fun w =>
  if save_fails path img then mkOut (Err OSError) w []
  else mkOut (Ok tt) w [EvSave path img].

(** [datetime.now().strftime("%Y%m%d_%H%M%S")]. *)
Definition now_stamp : M string := fun w => mkOut (Ok (clock w)) w [].

End Img.

(** [for v in xs: body] threading a loop state. *)
Fixpoint for_each {A} (xs : list Z) (st : A) (body : A -> Z -> M A) : M A :=
  match xs with
  | [] => ret st
  | v :: xs' => st' <- body st v ;; for_each xs' st' body
  end.

(** [range(n)]. *)
Definition range (n : Z) : list Z := map Z.of_nat (seq 0 (Z.to_nat n)).

(* ------------------------------------------------------------------ *)
(** ** [LocalImageGenerator] *)

Record LocalImageGenerator := { output_dir : string }.

Inductive shape :=
  | EllipseShape (x0 y0 x1 y1 : Z) (fill : rgba)
  | RectShape (x0 y0 x1 y1 : Z) (fill : rgba).

Section Generator.
Context {P : PIL}.
Import PyStr.
Local Open Scope string_scope.

Definition nl : string := String (ascii_of_nat 10) "".

(** Python's float division [a / b]. *)
Definition py_div (a b : R) : M R :=
  if Req_dec_T b 0%R then raise ZeroDivisionError else ret (a / b)%R.

(** [min(a, b)]: [b] only when it is strictly smaller. *)
Definition py_min (a b : R) : R := if Rlt_dec b a then b else a.

Definition nth_color (colors : list string) (i : nat) : M string :=
  lift_opt IndexError (nth_error colors i).

Definition generate_gradient_background (w h : Z) (colors : list string) : M raster :=
  image <- Img.new_image RGB w h (rgb 0 0 0) ;;
  gradient_type <- choice ["horizontal"; "vertical"; "diagonal"; "radial"] ;;
  if String.eqb gradient_type "horizontal" then
    for_each (range w) image (fun img x =>
      ratio <- py_div (IZR x) (IZR w) ;;
      c0 <- nth_color colors 0 ;; c1 <- nth_color colors 1 ;;
      '(r, g, b) <- Color.blend_colors c0 c1 ratio ;;
      ret (Img.line img x 0 x h (rgb r g b)))
  else if String.eqb gradient_type "vertical" then
    for_each (range h) image (fun img y =>
      ratio <- py_div (IZR y) (IZR h) ;;
      c0 <- nth_color colors 0 ;; c1 <- nth_color colors 1 ;;
      '(r, g, b) <- Color.blend_colors c0 c1 ratio ;;
      ret (Img.line img 0 y w y (rgb r g b)))
  else if String.eqb gradient_type "diagonal" then
    for_each (range h) image (fun img y =>
      for_each (range w) img (fun img x =>
        ratio <- py_div (IZR (x + y)) (IZR (w + h)) ;;
        c0 <- nth_color colors 0 ;; c1 <- nth_color colors 1 ;;
        '(r, g, b) <- Color.blend_colors c0 c1 ratio ;;
        ret (Img.point img x y (rgb r g b))))
  else if String.eqb gradient_type "radial" then
    let center_x := w / 2 in
    let center_y := h / 2 in
    let max_distance := sqrt (IZR (center_x ^ 2 + center_y ^ 2)) in
    for_each (range h) image (fun img y =>
      for_each (range w) img (fun img x =>
        let distance := sqrt (IZR ((x - center_x) ^ 2 + (y - center_y) ^ 2)) in
        q <- py_div distance max_distance ;;
        let ratio := py_min q 1%R in
        c0 <- nth_color colors 0 ;; c1 <- nth_color colors 1 ;;
        '(r, g, b) <- Color.blend_colors c0 c1 ratio ;;
        ret (Img.point img x y (rgb r g b))))
  else ret image.

Definition draw_shape (img : raster) (s : shape) : M raster :=
  match s with
  | EllipseShape x0 y0 x1 y1 c => Img.ellipse img x0 y0 x1 y1 c
  | RectShape x0 y0 x1 y1 c => Img.rectangle img x0 y0 x1 y1 c
  end.

Fixpoint draw_shapes (img : raster) (ss : list shape) : M raster :=
  match ss with
  | [] => ret img
  | s :: ss' => img' <- draw_shape img s ;; draw_shapes img' ss'
  end.

(** [add_geometric_patterns], also returning, per loop iteration, the
    shapes drawn on that iteration's overlay. *)
Definition add_geometric_patterns_traced (image : raster) (colors : list string)
  : M (raster * list (list shape)) :=
  let w := width image in
  let h := height image in
  pattern_type <- choice ["circles"; "rectangles"; "triangles"; "lines"] ;;
  num_shapes <- randint 5 15 ;;
  for_each (range num_shapes) (image, []) (fun '(image, drawn) _ =>
    color <- choice colors ;;
    alpha <- randint 50 150 ;;
    overlay <- Img.new_image RGBA w h (mkRGBA 0 0 0 0) ;;
    shapes <-
      (if String.eqb pattern_type "circles" then
         x <- randint 0 w ;; y <- randint 0 h ;; radius <- randint 20 100 ;;
         '(r, g, b) <- Color.hex_rgb color ;;
         ret [EllipseShape (x - radius) (y - radius) (x + radius) (y + radius)
                           (mkRGBA r g b alpha)]
       else if String.eqb pattern_type "rectangles" then
         x1 <- randint 0 (w / 2) ;; y1 <- randint 0 (h / 2) ;;
         x2 <- randint x1 w ;; y2 <- randint y1 h ;;
         '(r, g, b) <- Color.hex_rgb color ;;
         ret [RectShape x1 y1 x2 y2 (mkRGBA r g b alpha)]
       else ret []) ;;
    overlay <- draw_shapes overlay shapes ;;
    composed <- Img.alpha_composite (Img.convert RGBA image) overlay ;;
    ret (Img.convert RGB composed, (drawn ++ [shapes])%list)).

Definition add_geometric_patterns (image : raster) (colors : list string) : M raster :=
  r <- add_geometric_patterns_traced image colors ;; ret (fst r).

(** [ImageFont.truetype] tried at sizes 60, 48, 36, 24, then the default. *)
Fixpoint first_font (sizes : list Z) : Font :=
  match sizes with
  | [] => load_default
  | s :: sizes' => match truetype s with Some f => f | None => first_font sizes' end
  end.

(** [" ".join(prompt.split()[:3]).upper()]. *)
Definition display_text (prompt : string) : string :=
  upper (join " " (firstn 3 (split prompt))).

Definition add_text_overlay (image : raster) (prompt : string) : M raster :=
  let w := width image in
  let h := height image in
  let font := first_font [60; 48; 36; 24] in
  let txt := display_text prompt in
  let '(l, t, r, b) := text_bbox font txt in
  let text_width := r - l in
  let text_height := b - t in
  let text_positions :=
    [(w / 2 - text_width / 2, 50);
     (w / 2 - text_width / 2, h - text_height - 50);
     (50, h / 2 - text_height / 2);
     (w - text_width - 50, h / 2 - text_height / 2)] in
  '(x, y) <- choice text_positions ;;
  let shadow_offset := 3 in
  let image := Img.text image (x + shadow_offset) (y + shadow_offset) txt (rgb 0 0 0) font in
  ret (Img.text image x y txt (rgb 255 255 255) font).

Definition apply_artistic_effects (image : raster) : M raster :=
  chosen <- choice [Blur; Sharpen; Emboss; EdgeEnhance; Smooth] ;;
  Img.filter chosen image.

Definition create_abstract_art (w h : Z) (colors : list string) : M raster :=
  image <- Img.new_image RGB w h (rgb 255 255 255) ;;
  num_shapes <- randint 10 25 ;;
  for_each (range num_shapes) image (fun img _ =>
    shape_type <- choice ["ellipse"; "rectangle"; "polygon"] ;;
    color <- choice colors ;;
    if String.eqb shape_type "ellipse" then
      x1 <- randint 0 (w / 2) ;; y1 <- randint 0 (h / 2) ;;
      x2 <- randint x1 w ;; y2 <- randint y1 h ;;
      '(r, g, b) <- Color.hex_rgb color ;;
      Img.ellipse img x1 y1 x2 y2 (rgb r g b)
    else if String.eqb shape_type "rectangle" then
      x1 <- randint 0 (w / 2) ;; y1 <- randint 0 (h / 2) ;;
      x2 <- randint x1 w ;; y2 <- randint y1 h ;;
      '(r, g, b) <- Color.hex_rgb color ;;
      Img.rectangle img x1 y1 x2 y2 (rgb r g b)
    else if String.eqb shape_type "polygon" then
      num_points <- randint 3 6 ;;
      points <- for_each (range num_points) [] (fun pts _ =>
                  x <- randint 0 w ;; y <- randint 0 h ;; ret (pts ++ [(x, y)])%list) ;;
      '(r, g, b) <- Color.hex_rgb color ;;
      ret (Img.polygon img points (rgb r g b))
    else ret img).

Definition exn_name (e : exn) : string :=
  match e with
  | ZeroDivisionError => "float division by zero"
  | IndexError => "list index out of range"
  | ValueError => "invalid value"
  | KeyError => "key error"
  | UnboundLocalError => "local variable 'image' referenced before assignment"
  | OSError => "cannot write file"
  | FilterError => "filter failed"
  end.

(** [os.path.join(d, f)]. *)
Definition path_join (d f : string) : string :=
  if String.eqb d "" then f
  else if String.eqb (substring (String.length d - 1) 1 d) "/" then d ++ f
  else d ++ "/" ++ f.

(** The body of the [try] block of [generate_image]. *)
Definition render_and_save (self : LocalImageGenerator) (prompt theme style : string)
    (w h : Z) (colors : list string) : M (option string) :=
  image <-
    (if String.eqb style "gradient" then
       generate_gradient_background w h (firstn 2 colors)
     else if String.eqb style "abstract" then
       create_abstract_art w h colors
     else if String.eqb style "geometric" then
       bg_color <- nth_color colors 0 ;;
       '(r, g, b) <- Color.hex_rgb bg_color ;;
       image <- Img.new_image RGB w h (rgb r g b) ;;
       add_geometric_patterns image (skipn 1 colors)
     else raise UnboundLocalError) ;;
  image <- add_text_overlay image prompt ;;
  image <- apply_artistic_effects image ;;
  timestamp <- Img.now_stamp ;;
  let filename := "local_generated_" ++ style ++ "_" ++ timestamp ++ ".png" in
  let filepath := path_join (output_dir self) filename in
  Img.save filepath image ;;;
  print "Image generated successfully!" ;;;
  print ("Saved to: " ++ filepath) ;;;
  print ("Theme: " ++ theme ++ " | Style: " ++ style) ;;;
  ret (Some filepath).

(** [generate_image]; printed messages are given without their emoji. *)
Definition generate_image (self : LocalImageGenerator) (prompt : string) (w h : Z)
    (style : string) : M (option string) :=
  if String.eqb prompt "" || String.eqb (strip prompt) "" then
    print "Prompt cannot be empty" ;;; ret None
  else
    let prompt := strip prompt in
    print ("Generating image for: '" ++ prompt ++ "'") ;;;
    theme <- Theme.detect_theme prompt ;;
    colors <- lift_opt KeyError (Theme.lookup theme Theme.color_themes) ;;
    print ("Detected theme: " ++ theme) ;;;
    style <- (if String.eqb style "auto"
              then choice ["gradient"; "abstract"; "geometric"] else ret style) ;;
    print ("Using style: " ++ style) ;;;
    try_except (render_and_save self prompt theme style w h colors)
      (fun e => print ("Error generating image: " ++ exn_name e) ;;; ret None).

Definition count_successes (results : list (option string)) : Z :=
  Z.of_nat (List.length (filter (fun r => match r with Some _ => true | None => false end) results)).

(** The loop of [batch_generate] over [enumerate(prompts, 1)]. *)
Fixpoint batch_loop (self : LocalImageGenerator) (w h : Z) (style : string) (total : Z)
    (i : Z) (prompts : list string) (results : list (option string))
    : M (list (option string)) :=
  match prompts with
  | [] => ret results
  | prompt :: prompts' =>
      print (nl ++ "[" ++ Z_to_string i ++ "/" ++ Z_to_string total ++ "] Processing: '"
             ++ substring 0 50 prompt ++ "...'") ;;;
      result <- generate_image self prompt w h style ;;
      batch_loop self w h style total (i + 1) prompts' (results ++ [result])%list
  end.

(** [batch_generate(prompts, width=w, height=h, style=style)]. *)
Definition batch_generate (self : LocalImageGenerator) (prompts : list string) (w h : Z)
    (style : string) : M (list (option string)) :=
  let total := Z.of_nat (List.length prompts) in
  print ("Starting batch generation of " ++ Z_to_string total ++ " images...") ;;;
  results <- batch_loop self w h style total 1 prompts [] ;;
  let successful := count_successes results in
  print (nl ++ "Batch generation complete!") ;;;
  print ("Successful: " ++ Z_to_string successful ++ "/" ++ Z_to_string total) ;;;
  ret results.

End Generator.

(** [t] with score [s] is the first theme of maximal score in [l]. *)
Definition first_max (l : list (string * Z)) (t : string) (s : Z) : Prop :=
  exists pre post, l = (pre ++ (t, s) :: post)%list
    /\ Forall (fun z => snd z < s) pre /\ Forall (fun z => snd z <= s) post.

(** [m] emits no event, and every value it returns satisfies [Q]. *)
Definition triple {A} (m : M A) (Q : A -> Prop) : Prop :=
  forall w, out_log (m w) = [] /\ forall a, out_res (m w) = Ok a -> Q a.

(** Two rasters of the same size. *)
Definition same_size (a b : raster) : Prop := width a = width b /\ height a = height b.

(** A back end to run the model on concrete inputs: no font files, a
    one-pixel glyph at each text origin, filled bounding boxes for
    ellipses, nothing for polygons, identity filters, saving succeeds. *)
#[export] Instance plain_pil : PIL := {
  Font := unit;
  truetype := fun _ => None;
  load_default := tt;
  text_bbox := fun _ s => (0, 0, 6 * Z.of_nat (String.length s), 11);
  text_cover := fun _ _ dx dy => (dx =? 0) && (dy =? 0);
  ellipse_cover := fun '(x0, y0, x1, y1) x y => (x0 <=? x) && (x <=? x1) && (y0 <=? y) && (y <=? y1);
  polygon_cover := fun _ _ _ => false;
  filter_px := fun _ img => px img;
  filter_fails := fun _ _ => false;
  save_fails := fun _ _ => false
}.

(** A world whose random stream repeats [v]. *)
Definition const_world (v : Z) : World := mkWorld (fun _ => v) "20250704_120000".

(** [m] returns normally from every world, with a value satisfying [Q]. *)
Definition succeeds {A} (m : M A) (Q : A -> Prop) : Prop :=
  forall w, exists x, out_res (m w) = Ok x /\ Q x.

(** The paths of the files written, in the order of the events. *)
Definition save_paths (l : list event) : list string :=
  flat_map (fun e => match e with EvSave p _ => [p] | EvPrint _ => [] end) l.

(** The paths held by the [Some] results, in order. *)
Definition somes (rs : list (option string)) : list string :=
  flat_map (fun r => match r with Some p => [p] | None => [] end) rs.

(** A shape Pillow draws without raising: second corner not before the first. *)
Definition shape_ok (s : shape) : Prop :=
  match s with
  | EllipseShape x0 y0 x1 y1 _ => x0 <= x1 /\ y0 <= y1
  | RectShape x0 y0 x1 y1 _ => x0 <= x1 /\ y0 <= y1
  end.

(** The fill of an overlay shape of [add_geometric_patterns]: an alpha
    in [50, 150] and the channels of a colour of the list. *)
Definition fill_from (colors : list string) (world : World) (f : rgba) : Prop :=
  50 <= ca f <= 150 /\
  exists c, In c colors /\ out_res (Color.hex_rgb c world) = Ok (cr f, cg f, cb f).




(** All 256 characters. *)
Definition all_ascii : list ascii := map ascii_of_nat (seq 0 256).

Definition int16_in_range (s : string) : bool :=
  match PyInt.int16 s with Some v => (-15 <=? v) && (v <=? 255) | None => true end.

(** [m] writes no file. *)
Definition no_save {A} (m : M A) : Prop := forall w, save_paths (out_log (m w)) = [].

(** [m] writes one file exactly when it returns [Some p], the file [p]. *)
Definition saves_result (m : M (option string)) : Prop :=
  forall w, save_paths (out_log (m w)) =
            match out_res (m w) with Ok (Some p) => [p] | _ => [] end.

(* ================================================================== *)
(** * Properties *)

Module ThemeFacts.
Import PyStr Theme.
Local Open Scope string_scope.

Lemma theme_scores_filter (tk : list (string * list string)) (pl : string) :
  theme_scores tk pl =
  filter (fun z => (0 <? snd z)%Z) (map (fun '(t, kws) => (t, keyword_score kws pl)) tk).
Proof.
  induction tk as [| [t kws] tk IH]; simpl; [reflexivity |].
  destruct (0 <? keyword_score kws pl)%Z; simpl; now rewrite IH.
Qed.

Lemma keyword_score_nonneg (kws : list string) (pl : string) : (0 <= keyword_score kws pl)%Z.
Proof. unfold keyword_score; lia. Qed.

Lemma first_max_snoc (l : list (string * Z)) (t : string) (s : Z) (y : string * Z) :
  first_max l t s ->
  first_max (l ++ [y])%list
    (fst (if (s <? snd y)%Z then y else (t, s)))
    (snd (if (s <? snd y)%Z then y else (t, s))).
Proof.
  intros (pre & post & Hl & Hpre & Hpost).
  destruct (Z.ltb_spec s (snd y)) as [Hlt | Hle]; simpl.
  - exists l, []. destruct y as [ty sy]; simpl in *. split; [reflexivity |].
    split; [| constructor]. subst l. apply Forall_app. split.
    + eapply Forall_impl; [| exact Hpre]. intros z Hz; simpl in *; lia.
    + constructor; [simpl; lia |]. eapply Forall_impl; [| exact Hpost].
      intros z Hz; simpl in *; lia.
  - exists pre, (post ++ [y])%list. split.
    + subst l. now rewrite <- app_assoc.
    + split; [exact Hpre |]. apply Forall_app. split; [exact Hpost |].
      constructor; [lia | constructor].
Qed.

Lemma py_max_first_max_aux (xs l : list (string * Z)) (best : string * Z) :
  first_max l (fst best) (snd best) ->
  first_max (l ++ xs)%list
    (fst (fold_left (fun best y => if (snd best <? snd y)%Z then y else best) xs best))
    (snd (fold_left (fun best y => if (snd best <? snd y)%Z then y else best) xs best)).
Proof.
  revert l best. induction xs as [| y xs IH]; intros l best H; simpl.
  - now rewrite app_nil_r.
  - replace (l ++ y :: xs)%list with ((l ++ [y]) ++ xs)%list
      by now rewrite <- app_assoc.
    apply IH. destruct best as [tb sb]. simpl in *.
    pose proof (first_max_snoc l tb sb y H) as Hs. exact Hs.
Qed.

Lemma py_max_first_max (x : string * Z) (xs : list (string * Z)) :
  first_max (x :: xs) (fst (py_max_by_score x xs)) (snd (py_max_by_score x xs)).
Proof.
  apply (py_max_first_max_aux xs [x] x). exists [], []. destruct x.
  repeat split; constructor.
Qed.

(** A first maximum of the positive entries is a first maximum of all
    entries when the others are not positive. *)
Lemma first_max_unfilter (l : list (string * Z)) (t : string) (s : Z) :
  0 < s -> Forall (fun z => 0 <= snd z) l ->
  first_max (filter (fun z => (0 <? snd z)%Z) l) t s -> first_max l t s.
Proof.
  intros Hs. induction l as [| z l IH]; intros Hnn H; simpl in H.
  - destruct H as (pre & post & Hl & _). destruct pre; discriminate.
  - inversion Hnn as [| ? ? Hz Hnn']; subst.
    destruct (Z.ltb_spec 0 (snd z)) as [Hpos | Hnpos].
    + destruct H as (pre & post & Hl & Hpre & Hpost).
      destruct pre as [| z' pre].
      * simpl in Hl. inversion Hl; subst. exists [], l. split; [reflexivity |].
        split; [constructor |]. apply Forall_forall. intros u Hu.
        destruct (Z.ltb_spec 0 (snd u)).
        -- rewrite Forall_forall in Hpost. apply Hpost. apply filter_In. split; [exact Hu |].
           now apply Z.ltb_lt.
        -- simpl. lia.
      * simpl in Hl. inversion Hl; subst. inversion Hpre; subst.
        destruct IH as (pre' & post' & Hl' & Hpre' & Hpost'); [exact Hnn' | |].
        { exists pre, post. auto. }
        exists (z' :: pre'), post'. simpl. rewrite Hl'. auto.
    + destruct IH as (pre' & post' & Hl' & Hpre' & Hpost'); [exact Hnn' | exact H |].
      exists (z :: pre'), post'. rewrite Hl'. split; [reflexivity |].
      split; [constructor; [lia | exact Hpre'] | exact Hpost'].
Qed.

Lemma all_scores_nonneg (prompt : string) : Forall (fun z => 0 <= snd z) (all_scores prompt).
Proof.
  unfold all_scores. apply Forall_forall. intros z Hz. apply in_map_iff in Hz.
  destruct Hz as ([t kws] & <- & _). apply keyword_score_nonneg.
Qed.

(** Some theme scores: [detect_theme] returns the first maximal theme,
    without touching the random stream. *)
Lemma detect_theme_match (prompt : string) (w : World) :
  (exists z, In z (all_scores prompt) /\ 0 < snd z) ->
  exists t s, detect_theme prompt w = mkOut (Ok t) w [] /\ 0 < s
              /\ first_max (all_scores prompt) t s.
Proof.
  intros (z & Hin & Hpos). unfold detect_theme.
  rewrite theme_scores_filter. fold (all_scores prompt).
  destruct (filter (fun z => (0 <? snd z)%Z) (all_scores prompt)) as [| x xs] eqn:E.
  - exfalso. assert (In z (filter (fun z => (0 <? snd z)%Z) (all_scores prompt))) as Hf.
    { apply filter_In. split; [exact Hin | now apply Z.ltb_lt]. }
    rewrite E in Hf. destruct Hf.
  - exists (fst (py_max_by_score x xs)), (snd (py_max_by_score x xs)).
    pose proof (py_max_first_max x xs) as Hm. rewrite <- E in Hm.
    assert (0 < snd (py_max_by_score x xs)) as Hp.
    { destruct Hm as (pre & post & Hl & _).
      assert (In (fst (py_max_by_score x xs), snd (py_max_by_score x xs))
                 (filter (fun z => (0 <? snd z)%Z) (all_scores prompt))) as Hi.
      { rewrite Hl. apply in_or_app. right. left. reflexivity. }
      apply filter_In in Hi. destruct Hi as [_ Hi]. now apply Z.ltb_lt in Hi. }
    split; [reflexivity |]. split; [exact Hp |].
    apply first_max_unfilter; [exact Hp | apply all_scores_nonneg | exact Hm].
Qed.


Lemma map_str_app (f : ascii -> ascii) (u v : string) :
  map_str f (u ++ v) = map_str f u ++ map_str f v.
Proof. induction u as [| c u IH]; simpl; [reflexivity | now rewrite IH]. Qed.

Lemma upper_join_space (ws : list string) :
  upper (join " " ws) = join " " (map upper ws).
Proof.
  induction ws as [| u ws IH]; [reflexivity |].
  destruct ws as [| v ws]; [reflexivity |].
  change (upper (u ++ " " ++ join " " (v :: ws)) = join " " (upper u :: map upper (v :: ws))).
  unfold upper at 1. rewrite !map_str_app. fold (upper u). fold (upper (join " " (v :: ws))).
  rewrite IH. reflexivity.
Qed.

End ThemeFacts.

Module ThemeClaims.
Import PyStr Theme ThemeFacts.
Local Open Scope string_scope.

Lemma in_all_scores (prompt t : string) (s : Z) :
  In (t, s) (all_scores prompt) ->
  exists kws, In (t, kws) theme_keywords /\ s = keyword_score kws (lower prompt).
Proof.
  unfold all_scores. intros H. apply in_map_iff in H.
  destruct H as ([t' kws] & Heq & Hin). inversion Heq; subst. eauto.
Qed.


(** C1 (as stated): a prompt made only of keywords of theme T is
    detected as T.  Refuted: "tree" is a keyword of both "nature" and
    "forest", and "nature" comes first in the catalog. *)
Lemma detect_theme_only_keywords_counterexample :
  ~ (forall t kws prompt w, In (t, kws) theme_keywords ->
       Forall (fun wd => In wd kws) (split prompt) ->
       out_res (detect_theme prompt w) = Ok t).
Proof.
  intros H.
  specialize (H "forest" ["forest"; "wood"; "jungle"; "tree"; "green"] "tree" (const_world 0)).
  assert (out_res (detect_theme "tree" (const_world 0)) = Ok "nature") as E by reflexivity.
  rewrite E in H. discriminate H.
  - simpl. tauto.
  - vm_compute. repeat constructor; simpl; tauto.
Qed.

(** C1 (amended): when some keyword of theme T occurs in the lowercased
    prompt and no keyword of any other theme does, [detect_theme]
    returns T (and draws nothing from the random stream). *)
Theorem detect_theme_single_theme (t : string) (kws : list string) (prompt : string)
    (w : World)
    (Hin : In (t, kws) theme_keywords)
    (Hpos : 0 < keyword_score kws (lower prompt))
    (Hothers : forall t' kws', In (t', kws') theme_keywords -> t' <> t ->
                               keyword_score kws' (lower prompt) = 0) :
  detect_theme prompt w = mkOut (Ok t) w [].
Proof.
  destruct (detect_theme_match prompt w) as (t0 & s & Hd & Hs & pre & post & Hl & _).
  - exists (t, keyword_score kws (lower prompt)). split; [| exact Hpos].
    unfold all_scores. apply in_map_iff. exists (t, kws). auto.
  - rewrite Hd. destruct (String.eqb_spec t0 t) as [-> | Hne]; [reflexivity |].
    exfalso. assert (In (t0, s) (all_scores prompt)) as Hi.
    { rewrite Hl. apply in_or_app. right. now left. }
    apply in_all_scores in Hi. destruct Hi as (kws0 & Hi0 & ->).
    rewrite (Hothers t0 kws0 Hi0 Hne) in Hs. lia.
Qed.

Lemma detect_theme_single_theme_witness :
  detect_theme "Calm sea waves" (const_world 0) = mkOut (Ok "ocean") (const_world 0) [].
Proof.
  apply (detect_theme_single_theme "ocean" ["ocean"; "sea"; "water"; "wave"; "beach"; "blue"]).
  - simpl. tauto.
  - vm_compute. reflexivity.
  - intros t' kws' Hi Hne. simpl in Hi.
    repeat (destruct Hi as [Hi | Hi]; [inversion Hi; subst; vm_compute; congruence |]).
    destruct Hi.
Defined.



(** C8: the caption is the first three words of [prompt.split()] (all of
    them when there are fewer), upper-cased and joined by single spaces;
    "a b c d e" gives "A B C". *)
Theorem display_text_first_three_words (prompt : string) :
  display_text prompt = join " " (map upper (firstn 3 (split prompt)))
  /\ ((List.length (split prompt) <= 3)%nat ->
      display_text prompt = join " " (map upper (split prompt)))
  /\ display_text "a b c d e" = "A B C".
Proof.
  assert (display_text prompt = join " " (map upper (firstn 3 (split prompt)))) as H
    by (unfold display_text; apply upper_join_space).
  split; [exact H |]. split; [| reflexivity].
  intros Hl. rewrite H, firstn_all2; [reflexivity | exact Hl].
Qed.

End ThemeClaims.

(** ** The generation pipeline *)

Module PipelineFacts.
Import PyStr Theme ThemeFacts.
Local Open Scope string_scope.

Section Facts.
Context {P : PIL}.

Lemma choice_ok {A} (xs : list A) (w : World) :
  xs <> [] -> exists x w', choice xs w = mkOut (Ok x) w' [] /\ In x xs.
Proof.
  intros Hne. destruct xs as [| a xs']; [congruence |].
  unfold choice, randbelow.
  set (n := Z.of_nat (List.length (a :: xs'))).
  assert (0 < n) as Hn by (unfold n; simpl; lia).
  replace (n <=? 0)%Z with false by (symmetry; apply Z.leb_gt; lia).
  unfold bind, draw, ret, lift_opt; simpl.
  assert (0 <= rng w 0%nat mod n < n) as Hm by (apply Z.mod_pos_bound; lia).
  destruct (nth_error (a :: xs') (Z.to_nat (rng w 0%nat mod n))) as [x |] eqn:E.
  - exists x, (mkWorld (fun k => rng w (S k)) (clock w)). split; [reflexivity |].
    exact (nth_error_In _ _ E).
  - exfalso. apply nth_error_None in E. unfold n in *. simpl length in *. lia.
Qed.

Lemma detect_theme_in_catalog (prompt : string) (w : World) :
  exists t w', detect_theme prompt w = mkOut (Ok t) w' [] /\ In t (map fst color_themes).
Proof.
  unfold detect_theme.
  destruct (theme_scores theme_keywords (lower prompt)) as [| x xs] eqn:E.
  - destruct (choice_ok (map fst color_themes) w) as (t & w' & Hc & Hi); [discriminate |].
    exists t, w'. auto.
  - exists (fst (py_max_by_score x xs)), w. split; [reflexivity |].
    pose proof (py_max_first_max x xs) as (pre & post & Hl & _).
    assert (In (fst (py_max_by_score x xs), snd (py_max_by_score x xs))
               (theme_scores theme_keywords (lower prompt))) as Hi
      by (rewrite E, Hl; apply in_or_app; right; now left).
    rewrite theme_scores_filter in Hi. apply filter_In in Hi. destruct Hi as [Hi _].
    apply in_map_iff in Hi. destruct Hi as ([t kws] & Heq & Hi). injection Heq as Ht _.
    change (map fst color_themes) with (map fst theme_keywords).
    apply in_map_iff. exists (t, kws). auto.
Qed.

Lemma lookup_color_themes (t : string) :
  In t (map fst color_themes) -> exists colors, lookup t color_themes = Some colors.
Proof.
  intros Hi. simpl in Hi.
  repeat (destruct Hi as [<- | Hi]; [eexists; reflexivity |]). destruct Hi.
Qed.

Lemma print_run (s : string) (w : World) : print s w = mkOut (Ok tt) w [EvPrint s].
Proof. reflexivity. Qed.

Lemma bind_ok {A B} (m : M A) (f : A -> M B) (w w1 : World) (x : A) (l1 : list event) :
  m w = mkOut (Ok x) w1 l1 ->
  bind m f w = mkOut (out_res (f x w1)) (out_world (f x w1)) (l1 ++ out_log (f x w1)).
Proof. intros H. unfold bind. now rewrite H. Qed.

(** The single-prompt pipeline never lets an exception out. *)
Lemma generate_image_total (self : LocalImageGenerator) (prompt : string) (w h : Z)
    (style : string) (world : World) :
  exists r w' l, generate_image self prompt w h style world = mkOut (Ok r) w' l.
Proof.
  unfold generate_image.
  destruct (String.eqb prompt "" || String.eqb (strip prompt) "").
  - do 3 eexists. reflexivity.
  - destruct (detect_theme_in_catalog (strip prompt) world) as (t & w1 & Hd & Hi).
    destruct (lookup_color_themes t Hi) as (colors & Hc).
    erewrite bind_ok; [| apply print_run]. cbv beta.
    erewrite bind_ok; [| exact Hd]. cbv beta.
    erewrite bind_ok; [| unfold lift_opt; rewrite Hc; reflexivity]. cbv beta.
    erewrite bind_ok; [| apply print_run]. cbv beta.
    assert (exists st w2, (if String.eqb style "auto"
              then choice ["gradient"; "abstract"; "geometric"] else ret style) w1
              = mkOut (Ok st) w2 []) as (st & w2 & Hs).
    { destruct (String.eqb style "auto").
      - destruct (choice_ok ["gradient"; "abstract"; "geometric"] w1) as (st & w2 & Hch & _);
          [discriminate |]. eauto.
      - do 2 eexists. reflexivity. }
    erewrite bind_ok; [| exact Hs]. cbv beta.
    erewrite bind_ok; [| apply print_run]. cbv beta.
    unfold try_except.
    destruct (render_and_save self (strip prompt) t st w h colors w2) as [[r | e] w3 l3].
    + do 3 eexists. reflexivity.
    + do 3 eexists. reflexivity.
Qed.

Lemma batch_loop_spec (self : LocalImageGenerator) (w h : Z) (style : string) (total : Z)
    (prompts : list string) :
  forall i acc world, exists rs,
    out_res (batch_loop self w h style total i prompts acc world) = Ok (acc ++ rs)%list
    /\ List.length rs = List.length prompts
    /\ forall k p, nth_error prompts k = Some p ->
         exists r, nth_error rs k = Some r
           /\ out_res (generate_image self p w h style
                 (out_world (batch_loop self w h style total i (firstn k prompts) acc world)))
              = Ok r.
Proof.
  induction prompts as [| p ps IH]; intros i acc world.
  - exists []. split; [simpl; now rewrite app_nil_r |]. split; [reflexivity |].
    intros k p Hk. destruct k; discriminate.
  - destruct (generate_image_total self p w h style world) as (r & w1 & l1 & Hg).
    destruct (IH (i + 1) (acc ++ [r])%list w1) as (rs & Hr & Hlen & Hnth).
    exists (r :: rs). simpl batch_loop.
    erewrite bind_ok; [| apply print_run]. simpl.
    erewrite bind_ok; [| exact Hg]. simpl.
    split; [rewrite Hr; now rewrite <- app_assoc |].
    split; [simpl; now rewrite Hlen |].
    intros [| k] q Hk.
    + simpl in Hk. inversion Hk; subst. exists r. split; [reflexivity |].
      simpl. rewrite Hg. reflexivity.
    + simpl in Hk. destruct (Hnth k q Hk) as (r' & Hr' & Hg').
      exists r'. split; [exact Hr' |]. simpl firstn. simpl batch_loop.
      erewrite bind_ok; [| apply print_run]. simpl.
      erewrite bind_ok; [| exact Hg]. simpl. exact Hg'.
Qed.

End Facts.
End PipelineFacts.

Module PipelineClaims.
Import PyStr Theme PipelineFacts.
Local Open Scope string_scope.

Lemma lstrip_all_space (s : string) :
  forallb is_space (list_ascii_of_string s) = true -> lstrip s = "".
Proof.
  induction s as [| c s IH]; simpl; [reflexivity |].
  intros H. apply andb_prop in H. destruct H as [Hc Hs]. rewrite Hc. now apply IH.
Qed.

Section Claims.
Context {P : PIL}.

(** C4: a prompt that is empty or made only of whitespace makes
    [generate_image] print its error and return [None] at once: no
    random draw (so no theme detection or style choice), no rendering,
    no file written. *)
Theorem generate_image_blank_prompt (self : LocalImageGenerator) (prompt : string)
    (w h : Z) (style : string) (world : World)
    (Hblank : forallb is_space (list_ascii_of_string prompt) = true) :
  generate_image self prompt w h style world
  = mkOut (Ok None) world [EvPrint "Prompt cannot be empty"].
Proof.
  unfold generate_image.
  assert (strip prompt = "") as Hs.
  { unfold strip. rewrite (lstrip_all_space prompt Hblank). reflexivity. }
  rewrite Hs, orb_true_r. reflexivity.
Qed.

(** C6: [batch_generate] returns one result per prompt, in order; the
    [k]-th result is what [generate_image] returns on the [k]-th prompt,
    run in the world left by the prompts before it, whatever those
    returned; the last message is the tally "Successful: s/total" with
    [s] the number of non-[None] results. *)
Theorem batch_generate_per_prompt (self : LocalImageGenerator) (prompts : list string)
    (w h : Z) (style : string) (world : World) :
  exists rs,
    out_res (batch_generate self prompts w h style world) = Ok rs
    /\ List.length rs = List.length prompts
    /\ (forall k p, nth_error prompts k = Some p ->
          exists r, nth_error rs k = Some r
            /\ out_res (generate_image self p w h style
                  (out_world (batch_loop self w h style (Z.of_nat (List.length prompts)) 1
                                         (firstn k prompts) [] world))) = Ok r)
    /\ exists l, out_log (batch_generate self prompts w h style world)
                 = (l ++ [EvPrint ("Successful: " ++ Z_to_string (count_successes rs) ++ "/"
                                   ++ Z_to_string (Z.of_nat (List.length prompts)))])%list.
Proof.
  destruct (batch_loop_spec self w h style (Z.of_nat (List.length prompts)) prompts 1 [] world)
    as (rs & Hr & Hlen & Hnth).
  exists rs. unfold batch_generate.
  destruct (batch_loop self w h style (Z.of_nat (List.length prompts)) 1 prompts [] world)
    as [res w1 l1] eqn:E.
  simpl in Hr. subst res.
  erewrite bind_ok; [| apply print_run]. cbv beta.
  erewrite bind_ok; [| exact E]. cbv beta.
  split; [reflexivity |]. split; [exact Hlen |]. split; [exact Hnth |].
  exists (EvPrint ("Starting batch generation of " ++ Z_to_string (Z.of_nat (List.length prompts))
                   ++ " images...") :: l1 ++ [EvPrint (nl ++ "Batch generation complete!")])%list.
  cbn [out_log bind print ret List.app]. rewrite <- app_assoc. reflexivity.
Qed.

End Claims.

Lemma generate_image_blank_prompt_witness :
  generate_image (P := plain_pil) {| output_dir := "generated_images" |} "   " 800 600 "auto"
    (const_world 0)
  = mkOut (Ok None) (const_world 0) [EvPrint "Prompt cannot be empty"].
Proof. apply generate_image_blank_prompt. reflexivity. Defined.

(** The batch example of the spec: the empty second prompt fails, the
    other two succeed, and the tally reads "2/3". *)
Example batch_generate_example :
  let o := batch_generate (P := plain_pil) {| output_dir := "out" |}
             ["tree"; ""; "sea"] 20 10 "abstract" (const_world 0) in
  (match out_res o with Ok rs => map (fun r => match r with Some _ => true | None => false end) rs
                      | Err _ => [] end) = [true; false; true]
  /\ last (out_log o) (EvPrint "") = EvPrint "Successful: 2/3".
Proof. vm_compute. split; reflexivity. Qed.

End PipelineClaims.

(** ** Colour blending *)

Module ColorClaims.
Import PyStr Color.
Local Open Scope string_scope.

Definition hex_chars : list ascii :=
  ["0"; "1"; "2"; "3"; "4"; "5"; "6"; "7"; "8"; "9";
   "a"; "b"; "c"; "d"; "e"; "f"; "A"; "B"; "C"; "D"; "E"; "F"]%char.

Lemma hex_digit_cases (c : ascii) : is_hex_digit c = true -> In c hex_chars.
Proof.
  destruct c as [[] [] [] [] [] [] [] []]; vm_compute; intros H;
    solve [discriminate H | tauto].
Qed.

Lemma int16_two_digits (d1 d2 : ascii) :
  is_hex_digit d1 = true -> is_hex_digit d2 = true ->
  exists v, PyInt.int16 (String d1 (String d2 EmptyString)) = Some v /\ 0 <= v <= 255.
Proof.
  intros H1 H2. apply hex_digit_cases in H1, H2. unfold hex_chars in *.
  repeat (destruct H1 as [<- | H1]); try destruct H1;
    repeat (destruct H2 as [<- | H2]); try destruct H2;
    eexists; (split; [vm_compute; reflexivity | lia]).
Qed.

Lemma hex_rgb_valid (c : string) (w : World) :
  valid_hex c = true ->
  exists r g b, hex_rgb c w = mkOut (Ok (r, g, b)) w []
    /\ 0 <= r <= 255 /\ 0 <= g <= 255 /\ 0 <= b <= 255.
Proof.
  intros H.
  destruct c as [| h [| d1 [| d2 [| d3 [| d4 [| d5 [| d6 [| ? ?]]]]]]]];
    try discriminate H.
  simpl in H. apply andb_prop in H as [_ H].
  repeat (apply andb_prop in H as [? H]).
  destruct (int16_two_digits d1 d2) as (r & Hr & ?); [assumption | assumption |].
  destruct (int16_two_digits d3 d4) as (g & Hg & ?); [assumption | assumption |].
  destruct (int16_two_digits d5 d6) as (b & Hb & ?); [assumption | assumption |].
  exists r, g, b. split; [| lia].
  unfold hex_rgb, slice. simpl substring.
  rewrite Hr, Hg, Hb. reflexivity.
Qed.








End ColorClaims.

(** ** A small program logic for the rendering stages *)

Module Triple.

Lemma triple_ret {A} (x : A) (Q : A -> Prop) : Q x -> triple (ret x) Q.
Proof. intros H w. split; [reflexivity |]. intros a Ha. now inversion Ha; subst. Qed.

Lemma triple_raise {A} (e : exn) (Q : A -> Prop) : triple (raise e) Q.
Proof. intros w. split; [reflexivity | discriminate]. Qed.

Lemma triple_bind {A B} (m : M A) (f : A -> M B) (Q1 : A -> Prop) (Q : B -> Prop) :
  triple m Q1 -> (forall a, Q1 a -> triple (f a) Q) -> triple (bind m f) Q.
Proof.
  intros Hm Hf w. unfold bind. specialize (Hm w).
  destruct (m w) as [[x | e] w1 l1]; simpl in *; destruct Hm as [Hl Hr].
  - subst l1. destruct (Hf x (Hr x eq_refl) w1) as [Hl' Hr']. simpl.
    split; [exact Hl' | exact Hr'].
  - split; [exact Hl | discriminate].
Qed.

Lemma triple_conseq {A} (m : M A) (Q1 Q : A -> Prop) :
  triple m Q1 -> (forall a, Q1 a -> Q a) -> triple m Q.
Proof. intros Hm H w. destruct (Hm w) as [Hl Hr]. split; [exact Hl | auto]. Qed.

Lemma triple_draw : triple draw (fun _ => True).
Proof. intros w. split; [reflexivity | auto]. Qed.

Lemma triple_randbelow (n : Z) : triple (randbelow n) (fun v => 0 <= v < n).
Proof.
  unfold randbelow. destruct (Z.leb_spec n 0).
  - apply triple_raise.
  - eapply triple_bind; [apply triple_draw |]. intros v _. apply triple_ret.
    apply Z.mod_pos_bound. lia.
Qed.

Lemma triple_lift_opt {A} (e : exn) (o : option A) : triple (lift_opt e o) (fun x => o = Some x).
Proof. destruct o; [apply triple_ret; reflexivity | apply triple_raise]. Qed.

Lemma triple_choice {A} (xs : list A) : triple (choice xs) (fun x => In x xs).
Proof.
  unfold choice. destruct xs as [| a xs]; [apply triple_raise |].
  eapply triple_bind; [apply triple_randbelow |]. intros i _.
  eapply triple_conseq; [apply triple_lift_opt |]. intros x Hx. exact (nth_error_In _ _ Hx).
Qed.

Lemma triple_randint (a b : Z) : triple (randint a b) (fun v => a <= v <= b).
Proof.
  unfold randint. destruct (Z.ltb_spec b a); [apply triple_raise |].
  eapply triple_bind; [apply triple_randbelow |]. intros i Hi. apply triple_ret. cbv beta in *. lia.
Qed.

Lemma triple_new_image (m : mode) (w h : Z) (c : rgba) :
  triple (Img.new_image m w h c)
    (fun img => width img = w /\ height img = h /\ imode img = m /\ forall x y, px img x y = c).
Proof.
  unfold Img.new_image. destruct ((w <? 0) || (h <? 0)); [apply triple_raise |].
  apply triple_ret. simpl. auto.
Qed.

Lemma triple_for_each {A} (Inv : A -> Prop) (body : A -> Z -> M A) :
  (forall st v, Inv st -> triple (body st v) Inv) ->
  forall xs st, Inv st -> triple (for_each xs st body) Inv.
Proof.
  intros Hb xs. induction xs as [| v xs IH]; intros st Hst; simpl.
  - now apply triple_ret.
  - eapply triple_bind; [apply Hb; exact Hst |]. intros st' Hst'. now apply IH.
Qed.

Lemma triple_now_stamp : triple Img.now_stamp (fun _ => True).
Proof. intros w. split; [reflexivity | auto]. Qed.

Lemma triple_hex_rgb (c : string) : triple (Color.hex_rgb c) (fun _ => True).
Proof.
  unfold Color.hex_rgb.
  eapply triple_bind; [apply triple_lift_opt |]. intros r _.
  eapply triple_bind; [apply triple_lift_opt |]. intros g _.
  eapply triple_bind; [apply triple_lift_opt |]. intros b _.
  now apply triple_ret.
Qed.

Lemma triple_blend_colors (c1 c2 : string) (ratio : R) :
  triple (Color.blend_colors c1 c2 ratio) (fun _ => True).
Proof.
  unfold Color.blend_colors.
  eapply triple_bind; [apply triple_hex_rgb |]. intros [[r1 g1] b1] _.
  eapply triple_bind; [apply triple_hex_rgb |]. intros [[r2 g2] b2] _.
  now apply triple_ret.
Qed.

Lemma triple_py_div (a b : R) : triple (py_div a b) (fun _ => True).
Proof. unfold py_div. destruct (Req_dec_T b 0); [apply triple_raise | now apply triple_ret]. Qed.

Lemma triple_nth_color (colors : list string) (i : nat) : triple (nth_color colors i) (fun _ => True).
Proof. eapply triple_conseq; [apply triple_lift_opt | auto]. Qed.

Lemma triple_weaken_true {A} (m : M A) (Q : A -> Prop) : triple m Q -> triple m (fun _ => True).
Proof. intros H. eapply triple_conseq; [exact H | auto]. Qed.

Create HintDb triple.
#[export] Hint Resolve triple_draw triple_randbelow triple_lift_opt triple_choice triple_randint
  triple_new_image triple_now_stamp triple_hex_rgb triple_blend_colors triple_py_div
  triple_nth_color : triple.

(** Step through [x <- m ;; k] when [m] is a primitive of the hint base. *)
Ltac tstep :=
  lazymatch goal with
  | |- triple (bind _ _) _ =>
      eapply triple_bind; [solve [eauto with triple] |]; intros ? ?
  | |- triple (ret _) _ => apply triple_ret
  | |- triple (raise _) _ => apply triple_raise
  end.

End Triple.

Module StageFacts.
Import Triple.

Section Stages.
Context {P : PIL}.

Lemma paint_size (img : raster) (cov : Z -> Z -> bool) (c : rgba) :
  same_size (Img.paint img cov c) img.
Proof. split; reflexivity. Qed.

Lemma triple_ellipse (img : raster) (x0 y0 x1 y1 : Z) (c : rgba) :
  triple (Img.ellipse img x0 y0 x1 y1 c) (fun img' => same_size img' img).
Proof.
  unfold Img.ellipse. destruct ((x1 <? x0) || (y1 <? y0)); [apply triple_raise |].
  apply triple_ret, paint_size.
Qed.

Lemma triple_rectangle (img : raster) (x0 y0 x1 y1 : Z) (c : rgba) :
  triple (Img.rectangle img x0 y0 x1 y1 c) (fun img' => same_size img' img).
Proof.
  unfold Img.rectangle. destruct ((x1 <? x0) || (y1 <? y0)); [apply triple_raise |].
  apply triple_ret, paint_size.
Qed.

Lemma triple_draw_shapes (ss : list shape) :
  forall img, triple (draw_shapes img ss) (fun img' => same_size img' img).
Proof.
  induction ss as [| s ss IH]; intros img; simpl.
  - apply triple_ret. split; reflexivity.
  - eapply triple_bind.
    + destruct s; [apply triple_ellipse | apply triple_rectangle].
    + intros img1 [Hw Hh]. eapply triple_conseq; [apply IH |].
      intros img2 [Hw2 Hh2]. split; congruence.
Qed.

Lemma triple_alpha_composite (dst src : raster) :
  triple (Img.alpha_composite dst src) (fun img => same_size img dst).
Proof.
  unfold Img.alpha_composite.
  destruct (imode dst), (imode src); try apply triple_raise.
  destruct ((width dst =? width src) && (height dst =? height src)); [| apply triple_raise].
  apply triple_ret. split; reflexivity.
Qed.

Lemma triple_filter (e : effect) (img : raster) :
  triple (Img.filter e img) (fun img' => same_size img' img).
Proof.
  unfold Img.filter. destruct (filter_fails e img); [apply triple_raise |].
  apply triple_ret. split; reflexivity.
Qed.

Ltac pixel_body :=
  repeat (tstep; cbv beta in * );
  match goal with |- triple (match ?p with _ => _ end) _ => destruct p as [[? ?] ?] end;
  apply triple_ret; split; assumption.

Lemma gradient_size (w h : Z) (colors : list string) :
  triple (generate_gradient_background w h colors)
    (fun img => width img = w /\ height img = h).
Proof.
  unfold generate_gradient_background.
  eapply triple_bind; [apply triple_new_image |]. intros image (Hw & Hh & _).
  eapply triple_bind; [apply triple_choice |]. intros gradient_type _.
  destruct (String.eqb gradient_type "horizontal"%string);
    [| destruct (String.eqb gradient_type "vertical"%string);
    [| destruct (String.eqb gradient_type "diagonal"%string);
    [| destruct (String.eqb gradient_type "radial"%string)]]]; cbv zeta.
  - apply triple_for_each; [| split; assumption]. intros st x [Hsw Hsh]. pixel_body.
  - apply triple_for_each; [| split; assumption]. intros st y [Hsw Hsh]. pixel_body.
  - apply triple_for_each; [| split; assumption]. intros st y Hst.
    apply triple_for_each; [| exact Hst]. intros st' x [Hsw Hsh]. pixel_body.
  - apply triple_for_each; [| split; assumption]. intros st y Hst.
    apply triple_for_each; [| exact Hst]. intros st' x [Hsw Hsh]. pixel_body.
  - apply triple_ret. split; assumption.
Qed.

Ltac true_post :=
  repeat first
    [ tstep; cbv beta in *
    | match goal with |- triple (match ?p with _ => _ end) _ => destruct p as [[? ?] ?] end ];
  try exact I.

Lemma abstract_size (w h : Z) (colors : list string) :
  triple (create_abstract_art w h colors) (fun img => width img = w /\ height img = h).
Proof.
  unfold create_abstract_art.
  eapply triple_bind; [apply triple_new_image |]. intros image (Hw & Hh & _).
  eapply triple_bind; [apply triple_randint |]. intros n _.
  apply triple_for_each; [| split; assumption]. intros st v [Hsw Hsh].
  eapply triple_bind; [apply triple_choice |]. intros shape_type _.
  eapply triple_bind; [apply triple_choice |]. intros color _.
  destruct (String.eqb shape_type "ellipse"%string);
    [| destruct (String.eqb shape_type "rectangle"%string);
    [| destruct (String.eqb shape_type "polygon"%string)]].
  - do 4 (eapply triple_bind; [apply triple_randint | intros ? _]).
    eapply triple_bind; [apply triple_hex_rgb |]. intros [[r g] b] _.
    eapply triple_conseq; [apply triple_ellipse |]. intros img' [H1 H2]. split; congruence.
  - do 4 (eapply triple_bind; [apply triple_randint | intros ? _]).
    eapply triple_bind; [apply triple_hex_rgb |]. intros [[r g] b] _.
    eapply triple_conseq; [apply triple_rectangle |]. intros img' [H1 H2]. split; congruence.
  - eapply triple_bind; [apply triple_randint |]. intros num_points _.
    eapply triple_bind.
    + apply (triple_for_each (fun _ => True)); [| exact I]. intros pts _ _. true_post.
    + intros points _. eapply triple_bind; [apply triple_hex_rgb |]. intros [[r g] b] _.
      apply triple_ret. split; assumption.
  - apply triple_ret. split; assumption.
Qed.

Lemma geometric_traced_size (image : raster) (colors : list string) :
  triple (add_geometric_patterns_traced image colors) (fun r => same_size (fst r) image).
Proof.
  unfold add_geometric_patterns_traced. cbv zeta.
  eapply triple_bind; [apply triple_choice |]. intros pattern_type _.
  eapply triple_bind; [apply triple_randint |]. intros num_shapes _.
  apply triple_for_each; [| split; reflexivity]. intros [img drawn] v Hinv. simpl in Hinv.
  eapply triple_bind; [apply triple_choice |]. intros color _.
  eapply triple_bind; [apply triple_randint |]. intros alpha _.
  eapply triple_bind; [apply triple_new_image |]. intros ov (Hovw & Hovh & _).
  eapply triple_bind with (Q1 := fun _ => True).
  { destruct (String.eqb pattern_type "circles"%string);
      [| destruct (String.eqb pattern_type "rectangles"%string)]; true_post. }
  intros shapes _.
  eapply triple_bind; [apply triple_draw_shapes |]. intros ov2 _.
  eapply triple_bind; [apply triple_alpha_composite |]. intros comp [Hcw Hch].
  apply triple_ret. destruct Hinv as [Hw Hh]. simpl in *. split; simpl; congruence.
Qed.

Lemma geometric_size (image : raster) (colors : list string) :
  triple (add_geometric_patterns image colors) (fun img => same_size img image).
Proof.
  unfold add_geometric_patterns.
  eapply triple_bind; [apply geometric_traced_size |]. intros r Hr. now apply triple_ret.
Qed.

Lemma text_overlay_size (image : raster) (prompt : string) :
  triple (add_text_overlay image prompt) (fun img => same_size img image).
Proof.
  unfold add_text_overlay. cbv zeta.
  destruct (text_bbox (first_font [60; 48; 36; 24]) (display_text prompt)) as [[[l t] r] b].
  eapply triple_bind; [apply triple_choice |]. intros [x y] _.
  apply triple_ret. split; reflexivity.
Qed.

Lemma effects_size (image : raster) :
  triple (apply_artistic_effects image) (fun img => same_size img image).
Proof.
  unfold apply_artistic_effects.
  eapply triple_bind; [apply triple_choice |]. intros e _. apply triple_filter.
Qed.

End Stages.
End StageFacts.

Module DimensionClaims.
Import PyStr Triple StageFacts.
Local Open Scope string_scope.

Lemma bind_log {A B} (m : M A) (f : A -> M B) (w : World) (e : event) :
  In e (out_log (bind m f w)) ->
  In e (out_log (m w))
  \/ exists x, out_res (m w) = Ok x /\ In e (out_log (f x (out_world (m w)))).
Proof.
  unfold bind. destruct (m w) as [[x | ex] w1 l1]; simpl; [| auto].
  intros H. apply in_app_or in H. destruct H as [H | H]; [auto | right; eauto].
Qed.

Lemma try_log {A} (m : M A) (hd : exn -> M A) (w : World) (e : event) :
  In e (out_log (try_except m hd w)) ->
  In e (out_log (m w)) \/ exists ex w1, In e (out_log (hd ex w1)).
Proof.
  unfold try_except. destruct (m w) as [[x | ex] w1 l1]; simpl; [auto |].
  intros H. apply in_app_or in H. destruct H as [H | H]; [auto | right; eauto].
Qed.

Lemma triple_log {A} (m : M A) (Q : A -> Prop) (w : World) : triple m Q -> out_log (m w) = [].
Proof. intros H. apply (H w). Qed.

Lemma triple_res {A} (m : M A) (Q : A -> Prop) (w : World) (x : A) :
  triple m Q -> out_res (m w) = Ok x -> Q x.
Proof. intros H. apply (H w). Qed.

Lemma print_not_save (s p : string) (img : raster) (w : World) :
  ~ In (EvSave p img) (out_log (print s w)).
Proof. simpl. intros [H | []]. discriminate. Qed.

Section Dims.
Context {P : PIL}.

Lemma triple_detect_theme (prompt : string) : triple (Theme.detect_theme prompt) (fun _ => True).
Proof.
  unfold Theme.detect_theme.
  destruct (Theme.theme_scores Theme.theme_keywords (lower prompt)).
  - eapply triple_conseq; [apply triple_choice | auto].
  - now apply triple_ret.
Qed.

Lemma style_stage_size (self : LocalImageGenerator) (style : string) (w h : Z)
    (colors : list string) :
  triple
    (if String.eqb style "gradient" then
       generate_gradient_background w h (firstn 2 colors)
     else if String.eqb style "abstract" then
       create_abstract_art w h colors
     else if String.eqb style "geometric" then
       bg_color <- nth_color colors 0 ;;
       '(r, g, b) <- Color.hex_rgb bg_color ;;
       image <- Img.new_image RGB w h (rgb r g b) ;;
       add_geometric_patterns image (skipn 1 colors)
     else raise UnboundLocalError)
    (fun img => width img = w /\ height img = h).
Proof.
  destruct (String.eqb style "gradient"); [apply gradient_size |].
  destruct (String.eqb style "abstract"); [apply abstract_size |].
  destruct (String.eqb style "geometric"); [| apply triple_raise].
  eapply triple_bind; [apply triple_nth_color |]. intros bg _.
  eapply triple_bind; [apply triple_hex_rgb |]. intros [[r g] b] _.
  eapply triple_bind; [apply triple_new_image |]. intros image (Hw & Hh & _).
  eapply triple_conseq; [apply geometric_size |]. intros img [H1 H2]. split; congruence.
Qed.

Lemma render_and_save_dims (self : LocalImageGenerator) (prompt theme style : string)
    (w h : Z) (colors : list string) (world : World) (path : string) (img : raster) :
  In (EvSave path img) (out_log (render_and_save self prompt theme style w h colors world)) ->
  width img = w /\ height img = h.
Proof.
  unfold render_and_save. intros H.
  apply bind_log in H. destruct H as [H | (image & Hi & H)].
  { rewrite (triple_log _ _ _ (style_stage_size self style w h colors)) in H. destruct H. }
  pose proof (triple_res _ _ _ _ (style_stage_size self style w h colors) Hi) as [Hw Hh].
  apply bind_log in H. destruct H as [H | (image2 & Hi2 & H)].
  { rewrite (triple_log _ _ _ (text_overlay_size image prompt)) in H. destruct H. }
  pose proof (triple_res _ _ _ _ (text_overlay_size image prompt) Hi2) as [Hw2 Hh2].
  apply bind_log in H. destruct H as [H | (image3 & Hi3 & H)].
  { rewrite (triple_log _ _ _ (effects_size image2)) in H. destruct H. }
  pose proof (triple_res _ _ _ _ (effects_size image2) Hi3) as [Hw3 Hh3].
  apply bind_log in H. destruct H as [H | (stamp & _ & H)].
  { rewrite (triple_log _ _ _ triple_now_stamp) in H. destruct H. }
  cbv zeta in H. apply bind_log in H. destruct H as [H | (u & _ & H)].
  - unfold Img.save in H. destruct (save_fails _ _); simpl in H; [destruct H |].
    destruct H as [H | []]. inversion H; subst. split; congruence.
  - repeat (apply bind_log in H; destruct H as [H | (? & _ & H)];
            [exfalso; eapply print_not_save; exact H |]).
    destruct H.
Qed.

(** C9: a raster written by [generate_image] always has the requested
    width and height; the generators build rasters of that size and the
    later stages (geometric overlay, caption, filter) keep the size of
    the raster they are given. *)
Theorem generate_image_dimensions (self : LocalImageGenerator) (prompt : string) (w h : Z)
    (style : string) (world : World) :
  (forall path img, In (EvSave path img) (out_log (generate_image self prompt w h style world)) ->
     width img = w /\ height img = h)
  /\ (forall colors, triple (generate_gradient_background w h colors)
                            (fun img => width img = w /\ height img = h))
  /\ (forall colors, triple (create_abstract_art w h colors)
                            (fun img => width img = w /\ height img = h))
  /\ (forall img colors, triple (add_geometric_patterns img colors) (fun img' => same_size img' img))
  /\ (forall img, triple (add_text_overlay img prompt) (fun img' => same_size img' img))
  /\ (forall img, triple (apply_artistic_effects img) (fun img' => same_size img' img)).
Proof.
  split; [| split; [| split; [| split; [| split]]]];
    [| intros; apply gradient_size | intros; apply abstract_size
     | intros; apply geometric_size | intros i; exact (text_overlay_size i prompt)
     | intros; apply effects_size].
  intros path img H. unfold generate_image in H.
  destruct (String.eqb prompt "" || String.eqb (strip prompt) "").
  { apply bind_log in H. destruct H as [H | (? & _ & H)].
    - exfalso. eapply print_not_save. exact H.
    - destruct H. }
  apply bind_log in H. destruct H as [H | (? & _ & H)].
  { exfalso. eapply print_not_save. exact H. }
  apply bind_log in H. destruct H as [H | (theme & _ & H)].
  { rewrite (triple_log _ _ _ (triple_detect_theme _)) in H. destruct H. }
  apply bind_log in H. destruct H as [H | (colors & _ & H)].
  { rewrite (triple_log _ _ _ (triple_lift_opt _ _)) in H. destruct H. }
  apply bind_log in H. destruct H as [H | (? & _ & H)].
  { exfalso. eapply print_not_save. exact H. }
  apply bind_log in H. destruct H as [H | (style' & _ & H)].
  { destruct (String.eqb style "auto").
    - rewrite (triple_log _ _ _ (triple_choice _)) in H. destruct H.
    - destruct H. }
  apply bind_log in H. destruct H as [H | (? & _ & H)].
  { exfalso. eapply print_not_save. exact H. }
  apply try_log in H. destruct H as [H | (ex & w1 & H)].
  - eapply render_and_save_dims. exact H.
  - apply bind_log in H. destruct H as [H | (? & _ & H)].
    + exfalso. eapply print_not_save. exact H.
    + destruct H.
Qed.

End Dims.

(** The spec's example size: a geometric image of "Ocean sunset" at
    800x600 is written as an 800x600 raster. *)
Example generate_image_800x600 :
  match out_log (generate_image (P := plain_pil) {| output_dir := "generated_images" |}
                   "Ocean sunset" 800 600 "geometric" (const_world 0)) with
  | [_; _; _; EvSave _ img; _; _; _] => (width img, height img)
  | _ => (0, 0)
  end = (800, 600).
Proof. vm_compute. reflexivity. Qed.

End DimensionClaims.

Module PatternClaims.
Import Triple StageFacts DimensionClaims.

Lemma bind_inv {A B} (m : M A) (f : A -> M B) (w : World) (y : B) :
  out_res (bind m f w) = Ok y ->
  exists x, out_res (m w) = Ok x /\ out_res (f x (out_world (m w))) = Ok y.
Proof.
  unfold bind. destruct (m w) as [[x | ex] w1 l1]; simpl; [eauto | discriminate].
Qed.

Lemma for_each_inv {A} (I : A -> Prop) (body : A -> Z -> M A) (xs : list Z) :
  (forall s v w r, I s -> out_res (body s v w) = Ok r -> I r) ->
  forall st w r, I st -> out_res (for_each xs st body w) = Ok r -> I r.
Proof.
  intros Hb. induction xs as [| v xs IH]; intros st w r Hs Hr; simpl in Hr.
  - injection Hr as <-. exact Hs.
  - apply bind_inv in Hr as (s' & Hs' & Hr). eapply IH; [| exact Hr]. eapply Hb; eauto.
Qed.

(** A loop run at least once: a body that takes states satisfying [J]
    to states satisfying [K], with [K] stronger than [J], ends in [K]. *)
Lemma for_each_first {A} (J K : A -> Prop) (body : A -> Z -> M A) (xs : list Z) (st : A)
    (w : World) (r : A) :
  xs <> [] -> J st -> (forall s, K s -> J s) ->
  (forall s v w r, J s -> out_res (body s v w) = Ok r -> K r) ->
  out_res (for_each xs st body w) = Ok r -> K r.
Proof.
  intros Hne Hst HKJ Hb Hr. destruct xs as [| v xs]; [congruence |]. simpl in Hr.
  apply bind_inv in Hr as (s' & Hs' & Hr).
  eapply (for_each_inv K); [| | exact Hr]; eauto.
Qed.

Lemma range_nonempty (n : Z) : 0 < n -> range n <> [].
Proof.
  intros Hn. unfold range. destruct (Z.to_nat n) eqn:E; [lia | discriminate].
Qed.

Lemma opaque_idem (p : rgba) : Img.opaque (Img.opaque p) = Img.opaque p.
Proof. destruct p; reflexivity. Qed.

Lemma composite_transparent (p : rgba) : Img.composite_px p (mkRGBA 0 0 0 0) = p.
Proof. reflexivity. Qed.

Lemma convert_rgba_opaque (img : raster) (x y : Z) :
  Img.opaque (px (Img.convert RGBA img) x y) = Img.opaque (px img x y).
Proof. unfold Img.convert. simpl. destruct (imode img); [apply opaque_idem | reflexivity]. Qed.

Section Patterns.
Context {P : PIL}.

(** The pattern kind [add_geometric_patterns] picks from the first raw value. *)
Lemma pattern_choice (w : World) :
  choice ["circles"; "rectangles"; "triangles"; "lines"]%string w
  = mkOut (Ok (nth (Z.to_nat (rng w 0%nat mod 4)) ["circles"; "rectangles"; "triangles"; "lines"]%string ""%string))
          (mkWorld (fun n => rng w (S n)) (clock w)) [].
Proof.
  unfold choice, randbelow, draw, bind, ret, lift_opt. simpl.
  assert (0 <= rng w 0%nat mod 4 < 4) by (apply Z.mod_pos_bound; lia).
  destruct (Z.to_nat (rng w 0%nat mod 4)) as [| [| [| [| k]]]] eqn:E; try reflexivity. lia.
Qed.

(** With a kind other than circles and rectangles, every iteration of
    the loop composites an empty overlay: the raster keeps its size and
    the colours of [image], in RGB, and every iteration drew no shape. *)
Lemma geometric_traced_empty_kind (image : raster) (colors : list string) (world : World)
    (img' : raster) (drawn : list (list shape)) :
  (out_res (choice ["circles"; "rectangles"; "triangles"; "lines"]%string world) = Ok "triangles"%string
   \/ out_res (choice ["circles"; "rectangles"; "triangles"; "lines"]%string world) = Ok "lines"%string) ->
  out_res (add_geometric_patterns_traced image colors world) = Ok (img', drawn) ->
  same_size img' image /\ imode img' = RGB
  /\ (forall x y, px img' x y = Img.opaque (px image x y))
  /\ Forall (fun s => s = []) drawn.
Proof.
  intros Hkind Hres. unfold add_geometric_patterns_traced in Hres. cbv zeta in Hres.
  apply bind_inv in Hres as (pat & Hpat & Hres).
  assert (Hp : pat = "triangles"%string \/ pat = "lines"%string)
    by (destruct Hkind as [E | E]; rewrite E in Hpat; injection Hpat; auto).
  apply bind_inv in Hres as (n & Hn & Hres).
  pose proof (triple_res _ _ _ _ (triple_randint 5 15) Hn) as Hnb. cbv beta in Hnb.
  refine (for_each_first
    (fun '(img, d) => same_size img image
       /\ (forall x y, Img.opaque (px img x y) = Img.opaque (px image x y))
       /\ Forall (fun s => s = []) d)
    (fun '(img, d) => same_size img image /\ imode img = RGB
       /\ (forall x y, px img x y = Img.opaque (px image x y))
       /\ Forall (fun s => s = []) d)
    _ _ _ _ _ _ _ _ _ Hres).
  - apply range_nonempty. lia.
  - split; [split; reflexivity | split; [reflexivity | constructor]].
  - intros [img d] (HS & _ & HP & HD). split; [exact HS | split; [| exact HD]].
    intros x y. rewrite HP. apply opaque_idem.
  - intros [img d] v w r (HS & HP & HD) Hr.
    apply bind_inv in Hr as (color & _ & Hr).
    apply bind_inv in Hr as (alpha & _ & Hr).
    apply bind_inv in Hr as (ov & Ho & Hr).
    unfold Img.new_image in Ho. destruct (_ || _); [discriminate |]. injection Ho as <-.
    apply bind_inv in Hr as (shapes & Hs & Hr).
    assert (shapes = []) as -> by (destruct Hp as [-> | ->]; simpl in Hs; injection Hs; auto).
    apply bind_inv in Hr as (ov2 & Hov & Hr). simpl in Hov. injection Hov as <-.
    apply bind_inv in Hr as (comp & Hc & Hr).
    destruct HS as [HW HH].
    unfold Img.alpha_composite in Hc. simpl in Hc. rewrite HW, HH, !Z.eqb_refl in Hc.
    simpl in Hc. injection Hc as <-. simpl in Hr. injection Hr as <-.
    split; [split; simpl; first [reflexivity | assumption] |]. split; [reflexivity |]. split.
    + intros x y. cbn [Img.convert px imode]. rewrite composite_transparent. 
      change (Img.opaque (px (Img.convert RGBA img) x y) = Img.opaque (px image x y)).
      rewrite convert_rgba_opaque. apply HP.
    + apply Forall_app. split; [exact HD | repeat constructor].
Qed.

(** C10: when [add_geometric_patterns] picks the kind "triangles" or
    "lines", no shape is drawn: each iteration composites a fully
    transparent overlay, so the returned RGB raster has the size of the
    input and, at every pixel, the colour of the input pixel. *)
Theorem add_geometric_patterns_transparent_kinds (image : raster) (colors : list string)
    (world : World)
    (Hkind : out_res (choice ["circles"; "rectangles"; "triangles"; "lines"]%string world)
               = Ok "triangles"%string
             \/ out_res (choice ["circles"; "rectangles"; "triangles"; "lines"]%string world)
               = Ok "lines"%string) :
  match out_res (add_geometric_patterns image colors world) with
  | Ok img' => same_size img' image /\ imode img' = RGB
               /\ forall x y, px img' x y = Img.opaque (px image x y)
  | Err _ => True
  end.
Proof.
  unfold add_geometric_patterns.
  destruct (out_res (bind _ _ world)) as [img' | e] eqn:E; [| exact I].
  apply bind_inv in E as ([img d] & Ht & E). simpl in E. injection E as <-.
  apply geometric_traced_empty_kind in Ht as (HS & HM & HP & _); [| exact Hkind].
  auto.
Qed.

End Patterns.

Lemma add_geometric_patterns_transparent_kinds_witness :
  (out_res (choice ["circles"; "rectangles"; "triangles"; "lines"]%string (const_world 2))
     = Ok "triangles"%string
   \/ out_res (choice ["circles"; "rectangles"; "triangles"; "lines"]%string (const_world 2))
     = Ok "lines"%string)
  /\ match out_res (add_geometric_patterns (P := plain_pil)
                      (mkRaster 40 30 RGB (fun _ _ => rgb 34 139 34)) ["#32CD32"; "#90EE90"]%string
                      (const_world 2)) with
     | Ok img' => same_size img' (mkRaster 40 30 RGB (fun _ _ => rgb 34 139 34))
                  /\ imode img' = RGB
                  /\ forall x y, px img' x y = Img.opaque (px (mkRaster 40 30 RGB (fun _ _ => rgb 34 139 34)) x y)
     | Err _ => True
     end.
Proof.
  split.
  - left. reflexivity.
  - apply (add_geometric_patterns_transparent_kinds (P := plain_pil)). left. reflexivity.
Defined.

(** C5 fails for the kinds "triangles" and "lines": on the geometric
    path of [generate_image] for the nature theme (background #228B22,
    overlay colours palette[1:]), a random stream of 2s picks "triangles"
    and 7 iterations, and none of them draws a shape; the canvas is
    returned with its background colour everywhere. *)
Lemma geometric_no_shapes_counterexample :
  match Theme.lookup "nature"%string Theme.color_themes with
  | Some palette =>
      palette = ["#228B22"; "#32CD32"; "#90EE90"; "#006400"; "#8FBC8F"]%string
      /\ out_res (Color.hex_rgb "#228B22"%string (const_world 2)) = Ok (34, 139, 34)
      /\ match out_res (add_geometric_patterns_traced (P := plain_pil)
                          (mkRaster 800 600 RGB (fun _ _ => rgb 34 139 34)) (skipn 1 palette)
                          (const_world 2)) with
         | Ok (img, drawn) =>
             drawn = [[]; []; []; []; []; []; []]
             /\ forall x y, px img x y = rgb 34 139 34
         | Err _ => False
         end
  | None => False
  end.
Proof.
  vm_compute. split; [reflexivity | split; [reflexivity | split; [reflexivity |]]].
  intros x y. reflexivity.
Qed.

End PatternClaims.

Module GradientClaims.

(** C3 fails on a 1x1 canvas with the radial kind: the centre is (0, 0),
    so the largest distance [sqrt(0**2 + 0**2)] is 0 and the ratio
    [distance / max_distance] raises ZeroDivisionError; no raster is
    produced at all. *)
Lemma radial_one_pixel_counterexample :
  out_res (choice ["horizontal"; "vertical"; "diagonal"; "radial"]%string (const_world 3))
    = Ok "radial"%string
  /\ out_res (generate_gradient_background 1 1 ["#228B22"; "#32CD32"]%string (const_world 3))
    = Err ZeroDivisionError.
Proof.
  split; [reflexivity |].
  unfold generate_gradient_background. simpl.
  replace (Z.pow_pos (1 / 2) 2) with 0 by reflexivity. rewrite sqrt_0.
  unfold py_div. destruct (Req_dec_T 0 0) as [_ | C]; [| congruence]. reflexivity.
Qed.

End GradientClaims.


Module GradientFacts.
Import PyStr Triple PatternClaims.




Section Paint.
Variables (W H : Z) (S : Z -> Z -> Z -> bool) (Good : Z -> Z -> rgba -> Prop).


End Paint.
End GradientFacts.

Module GradientPixels.
Import PyStr Triple PatternClaims GradientFacts.

Lemma bind_res_ok {A B} (m : M A) (f : A -> M B) (w : World) (x : A) :
  out_res (m w) = Ok x -> out_res (bind m f w) = out_res (f x (out_world (m w))).
Proof. unfold bind. destruct (m w) as [[y | e] w1 l1]; simpl; congruence. Qed.










End GradientPixels.

Module HexFacts.
Import PyStr Triple PatternClaims ColorClaims GradientPixels.

Lemma hex_rgb_res (c : string) (w : World) :
  (exists r g b, out_res (Color.hex_rgb c w) = Ok (r, g, b)) \/ out_res (Color.hex_rgb c w) = Err ValueError.
Proof.
  unfold Color.hex_rgb, lift_opt, bind, ret, raise.
  repeat (destruct (PyInt.int16 _)); simpl; eauto.
Qed.


Lemma substring_past_end (s : string) (n m : nat) :
  (String.length s <= n)%nat -> substring n m s = ""%string.
Proof.
  revert n. induction s as [| a s IH]; intros n Hn.
  - destruct n, m; reflexivity.
  - destruct n as [| n]; simpl in Hn; [lia |]. simpl. apply IH. lia.
Qed.

Lemma bind_err {A B} (m : M A) (f : A -> M B) (w : World) (e : exn) :
  out_res (m w) = Err e -> out_res (bind m f w) = Err e.
Proof. unfold bind. destruct (m w) as [[x | e'] w1 l1]; simpl; congruence. Qed.

Lemma all_ascii_complete (c : ascii) : In c all_ascii.
Proof.
  unfold all_ascii. rewrite <- (ascii_nat_embedding c). apply in_map. apply in_seq.
  pose proof (nat_ascii_bounded c). lia.
Qed.

Definition int16_in_range (s : string) : bool :=
  match PyInt.int16 s with Some v => (-15 <=? v) && (v <=? 255) | None => true end.

Lemma int16_short_range (s : string) (v : Z) :
  (String.length s <= 2)%nat -> PyInt.int16 s = Some v -> -15 <= v <= 255.
Proof.
  intros Hl Hv.
  assert (int16_in_range s = true) as H.
  { destruct s as [| a [| b [| c s]]]; [reflexivity | | | simpl in Hl; lia].
    - assert (forallb (fun a => int16_in_range (String a EmptyString)) all_ascii = true) as F
        by (vm_compute; reflexivity).
      rewrite forallb_forall in F. apply F, all_ascii_complete.
    - assert (forallb (fun a => forallb (fun b => int16_in_range (String a (String b EmptyString)))
                                  all_ascii) all_ascii = true) as F
        by (vm_compute; reflexivity).
      rewrite forallb_forall in F. specialize (F a (all_ascii_complete a)).
      rewrite forallb_forall in F. apply F, all_ascii_complete. }
  unfold int16_in_range in H. rewrite Hv in H. apply andb_true_iff in H as [H1 H2].
  apply Z.leb_le in H1, H2. lia.
Qed.

Lemma substring_length_le (s : string) (n m : nat) : (String.length (substring n m s) <= m)%nat.
Proof.
  revert n m. induction s as [| a s IH]; intros n m.
  - destruct n, m; simpl; lia.
  - destruct n as [| n].
    + destruct m as [| m]; simpl; [lia |]. specialize (IH 0%nat m). lia.
    + simpl. apply IH.
Qed.

Lemma hex_rgb_indep (c : string) (w w' : World) :
  out_res (Color.hex_rgb c w) = out_res (Color.hex_rgb c w').
Proof. unfold Color.hex_rgb, lift_opt, bind, ret, raise. repeat (destruct (PyInt.int16 _)); reflexivity. Qed.

End HexFacts.

Module SuccessFacts.
Import PyStr Triple PatternClaims ColorClaims GradientPixels HexFacts.

Lemma s_ret {A} (x : A) (Q : A -> Prop) : Q x -> succeeds (ret x) Q.
Proof. intros H w. exists x. split; [reflexivity | exact H]. Qed.

Lemma s_bind {A B} (m : M A) (f : A -> M B) (Q1 : A -> Prop) (Q : B -> Prop) :
  succeeds m Q1 -> (forall a, Q1 a -> succeeds (f a) Q) -> succeeds (bind m f) Q.
Proof.
  intros Hm Hf w. destruct (Hm w) as (x & Hx & HQ).
  rewrite (bind_res_ok _ _ _ _ Hx). apply Hf, HQ.
Qed.

Lemma s_conseq {A} (m : M A) (Q1 Q : A -> Prop) :
  succeeds m Q1 -> (forall a, Q1 a -> Q a) -> succeeds m Q.
Proof. intros Hm H w. destruct (Hm w) as (x & Hx & HQ). eauto. Qed.

Lemma s_randbelow (n : Z) : 0 < n -> succeeds (randbelow n) (fun v => 0 <= v < n).
Proof.
  intros Hn w. unfold randbelow. replace (n <=? 0) with false by (symmetry; apply Z.leb_gt; lia).
  eexists. split; [reflexivity |]. apply Z.mod_pos_bound. lia.
Qed.

Lemma s_randint (a b : Z) : a <= b -> succeeds (randint a b) (fun v => a <= v <= b).
Proof.
  intros Hab. unfold randint. replace (b <? a) with false by (symmetry; apply Z.ltb_ge; lia).
  eapply s_bind; [apply s_randbelow; lia |]. intros i Hi. apply s_ret. cbv beta in Hi. lia.
Qed.

Lemma s_choice {A} (xs : list A) : xs <> [] -> succeeds (choice xs) (fun x => In x xs).
Proof.
  intros Hne w. destruct (PipelineFacts.choice_ok xs w Hne) as (x & w' & E & Hin).
  exists x. rewrite E. auto.
Qed.

Lemma s_new_image (m : mode) (w h : Z) (c : rgba) : 0 <= w -> 0 <= h ->
  succeeds (Img.new_image m w h c)
    (fun img => img = mkRaster w h m (fun _ _ => c)).
Proof.
  intros Hw Hh wd. unfold Img.new_image.
  replace ((w <? 0) || (h <? 0)) with false by (symmetry; apply orb_false_iff; split; apply Z.ltb_ge; lia).
  eexists. split; reflexivity.
Qed.

Lemma s_for_each {A} (I : A -> Prop) (body : A -> Z -> M A) (xs : list Z) :
  (forall st v, I st -> In v xs -> succeeds (body st v) I) ->
  forall st, I st -> succeeds (for_each xs st body) I.
Proof.
  induction xs as [| v xs IH]; intros Hb st Hst; simpl.
  - now apply s_ret.
  - eapply s_bind; [apply Hb; [exact Hst | now left] |]. intros st' Hst'.
    apply IH; [| exact Hst']. intros s v' Hs Hv. apply Hb; [exact Hs | now right].
Qed.

Lemma s_hex_rgb (c : string) : Color.valid_hex c = true ->
  succeeds (Color.hex_rgb c) (fun '(r, g, b) => forall w, out_res (Color.hex_rgb c w) = Ok (r, g, b)).
Proof.
  intros V w. destruct (hex_rgb_valid c w V) as (r & g & b & E & _).
  exists (r, g, b). rewrite E. split; [reflexivity |]. intros w'.
  destruct (hex_rgb_valid c w' V) as (r' & g' & b' & E' & _).
  rewrite E'. unfold Color.hex_rgb, lift_opt, bind, ret, raise in E, E'.
  destruct (PyInt.int16 (slice 1 3 c)), (PyInt.int16 (slice 3 5 c)), (PyInt.int16 (slice 5 7 c));
    simpl in *; congruence.
Qed.




Lemma s_alpha_composite (dst src : raster) :
  imode dst = RGBA -> imode src = RGBA -> width src = width dst -> height src = height dst ->
  succeeds (Img.alpha_composite dst src) (fun img => same_size img dst).
Proof.
  intros Hd Hs Hw Hh wd. unfold Img.alpha_composite. rewrite Hd, Hs, Hw, Hh, !Z.eqb_refl.
  eexists. split; [reflexivity | split; reflexivity].
Qed.

Section Stages.
Context {P : PIL}.

Lemma s_ellipse (img : raster) (x0 y0 x1 y1 : Z) (c : rgba) : x0 <= x1 -> y0 <= y1 ->
  succeeds (Img.ellipse img x0 y0 x1 y1 c)
    (fun img' => img' = Img.paint img (ellipse_cover (x0, y0, x1, y1)) c).
Proof.
  intros Hx Hy w. unfold Img.ellipse.
  replace ((x1 <? x0) || (y1 <? y0)) with false by (symmetry; apply orb_false_iff; split; apply Z.ltb_ge; lia).
  eexists. split; reflexivity.
Qed.

Lemma s_rectangle (img : raster) (x0 y0 x1 y1 : Z) (c : rgba) : x0 <= x1 -> y0 <= y1 ->
  succeeds (Img.rectangle img x0 y0 x1 y1 c)
    (fun img' => img' = Img.paint img
       (fun x y => (x0 <=? x) && (x <=? x1) && (y0 <=? y) && (y <=? y1)) c).
Proof.
  intros Hx Hy w. unfold Img.rectangle.
  replace ((x1 <? x0) || (y1 <? y0)) with false by (symmetry; apply orb_false_iff; split; apply Z.ltb_ge; lia).
  eexists. split; reflexivity.
Qed.

Lemma s_draw_shapes (ss : list shape) : Forall shape_ok ss ->
  forall img, succeeds (draw_shapes img ss) (fun img' => same_size img' img /\ imode img' = imode img).
Proof.
  induction 1 as [| s ss Hs Hss IH]; intros img; simpl.
  - apply s_ret. split; [split |]; reflexivity.
  - eapply s_bind with (Q1 := fun img1 => same_size img1 img /\ imode img1 = imode img).
    + destruct s; simpl in Hs; destruct Hs.
      * eapply s_conseq; [apply s_ellipse; assumption |]. intros ? ->. split; [split |]; reflexivity.
      * eapply s_conseq; [apply s_rectangle; assumption |]. intros ? ->. split; [split |]; reflexivity.
    + intros img1 [[Hw Hh] Hm]. eapply s_conseq; [apply IH |].
      intros img2 [[Hw2 Hh2] Hm2]. split; [split |]; congruence.
Qed.

Lemma geometric_traced_succeeds (image : raster) (colors : list string) :
  0 <= width image -> 0 <= height image -> colors <> [] ->
  forallb Color.valid_hex colors = true ->
  succeeds (add_geometric_patterns_traced image colors) (fun r => same_size (fst r) image).
Proof.
  intros Hw Hh Hne Hv. unfold add_geometric_patterns_traced. cbv zeta.
  eapply s_bind; [apply s_choice; discriminate |]. intros pattern_type _.
  eapply s_bind; [apply s_randint; lia |]. intros n _.
  apply s_for_each; [| split; reflexivity].
  intros [img drawn] v [HW HH] _.
  eapply s_bind; [apply s_choice, Hne |]. intros color Hc.
  assert (Color.valid_hex color = true) as Vc by (rewrite forallb_forall in Hv; auto).
  eapply s_bind; [apply s_randint; lia |]. intros alpha _.
  eapply s_bind; [apply s_new_image; assumption |]. intros ov ->.
  eapply s_bind with (Q1 := Forall shape_ok).
  { destruct (String.eqb pattern_type "circles"%string);
      [| destruct (String.eqb pattern_type "rectangles"%string)].
    - eapply s_bind; [apply s_randint; lia |]. intros x _.
      eapply s_bind; [apply s_randint; lia |]. intros y _.
      eapply s_bind; [apply s_randint; lia |]. intros rad Hrad.
      eapply s_bind; [apply s_hex_rgb, Vc |]. intros [[r g] b] _.
      apply s_ret. cbv beta in *. constructor; [simpl; lia | constructor].
    - eapply s_bind; [apply s_randint; apply Z.div_pos; lia |]. intros x1 Hx1.
      eapply s_bind; [apply s_randint; apply Z.div_pos; lia |]. intros y1 Hy1.
      eapply s_bind; [apply s_randint; cbv beta in *; pose proof (Z.div_le_upper_bound (width image) 2 (width image)); lia |].
      intros x2 Hx2.
      eapply s_bind; [apply s_randint; cbv beta in *; pose proof (Z.div_le_upper_bound (height image) 2 (height image)); lia |].
      intros y2 Hy2.
      eapply s_bind; [apply s_hex_rgb, Vc |]. intros [[r g] b] _.
      apply s_ret. cbv beta in *. constructor; [simpl; lia | constructor].
    - apply s_ret. constructor. }
  intros shapes Hs.
  eapply s_bind; [apply s_draw_shapes, Hs |]. intros ov2 [[Hw2 Hh2] Hm2].
  eapply s_bind; [apply s_alpha_composite; simpl in *; congruence |].
  intros comp [Hcw Hch]. apply s_ret. simpl in *. split; simpl; congruence.
Qed.

End Stages.
End SuccessFacts.

Module AbstractSuccess.
Import PyStr Triple PatternClaims ColorClaims GradientPixels HexFacts SuccessFacts.

Section Abstract.
Context {P : PIL}.
Variables (w h : Z) (colors : list string).



End Abstract.
End AbstractSuccess.

Module GradientSuccess.
Import PyStr Triple PatternClaims ColorClaims GradientFacts GradientPixels HexFacts SuccessFacts.

Section Gradient.
Context {P : PIL}.
Variables (w h : Z) (colors : list string) (c0 c1 : string).
Hypotheses (H0 : nth_error colors 0 = Some c0) (H1 : nth_error colors 1 = Some c1)
           (V0 : Color.valid_hex c0 = true) (V1 : Color.valid_hex c1 = true).




End Gradient.
End GradientSuccess.

Module StageSuccess.
Import PyStr Theme Triple PatternClaims ColorClaims GradientFacts GradientPixels HexFacts SuccessFacts AbstractSuccess GradientSuccess.
Local Open Scope string_scope.





Section Pipeline.
Context {P : PIL}.
Hypothesis filter_ok : forall e img, filter_fails e img = false.
Hypothesis save_ok : forall p img, save_fails p img = false.






End Pipeline.
End StageSuccess.

Module GenerateSuccess.
Import PyStr Theme Triple PatternClaims ColorClaims PipelineFacts SuccessFacts StageSuccess.
Local Open Scope string_scope.




Section Gen.
Context {P : PIL}.
Hypothesis filter_ok : forall e img, filter_fails e img = false.
Hypothesis save_ok : forall p img, save_fails p img = false.


End Gen.
End GenerateSuccess.

Module SaveFacts.
Import PyStr Theme Triple PatternClaims PipelineFacts DimensionClaims StageFacts.
Local Open Scope string_scope.

Lemma save_paths_app (l1 l2 : list event) :
  save_paths (l1 ++ l2) = (save_paths l1 ++ save_paths l2)%list.
Proof. unfold save_paths. apply flat_map_app. Qed.

Lemma no_save_triple {A} (m : M A) (Q : A -> Prop) : triple m Q -> no_save m.
Proof. intros H w. now rewrite (triple_log _ _ w H). Qed.

Lemma no_save_print (s : string) : no_save (print s).
Proof. intros w. reflexivity. Qed.

Lemma no_save_ret {A} (x : A) : no_save (ret x).
Proof. intros w. reflexivity. Qed.

Lemma no_save_bind {A B} (m : M A) (f : A -> M B) :
  no_save m -> (forall x, no_save (f x)) -> no_save (bind m f).
Proof.
  intros Hm Hf w. unfold bind. specialize (Hm w).
  destruct (m w) as [[x | e] w1 l1]; simpl in *; [| exact Hm].
  rewrite save_paths_app, Hm, Hf. reflexivity.
Qed.

Lemma saves_result_bind {A} (m : M A) (f : A -> M (option string)) :
  no_save m -> (forall x, saves_result (f x)) -> saves_result (bind m f).
Proof.
  intros Hm Hf w. unfold bind. specialize (Hm w).
  destruct (m w) as [[x | e] w1 l1]; simpl in *; [| exact Hm].
  rewrite save_paths_app, Hm, Hf. reflexivity.
Qed.

Lemma saves_result_none (m : M (option string)) :
  no_save m -> (forall w r, out_res (m w) = Ok r -> r = None) -> saves_result m.
Proof.
  intros Hm Hr w. rewrite Hm. destruct (out_res (m w)) as [r | e] eqn:E; [| reflexivity].
  rewrite (Hr w r E). reflexivity.
Qed.

Lemma saves_result_try (m : M (option string)) (hd : exn -> M (option string)) :
  saves_result m -> (forall e, saves_result (hd e)) -> saves_result (try_except m hd).
Proof.
  intros Hm Hh w. unfold try_except. specialize (Hm w).
  destruct (m w) as [[x | e] w1 l1]; simpl in *; [exact Hm |].
  rewrite save_paths_app, Hm, Hh. reflexivity.
Qed.

Section Log.
Context {P : PIL}.

Lemma print_none_saves (s : string) : saves_result (print s ;;; ret None).
Proof. intros w. reflexivity. Qed.

Lemma render_and_save_saves (self : LocalImageGenerator) (prompt theme style : string)
    (w h : Z) (colors : list string) :
  saves_result (render_and_save self prompt theme style w h colors).
Proof.
  unfold render_and_save.
  apply saves_result_bind; [eapply no_save_triple, (style_stage_size self) |]. intros img.
  apply saves_result_bind; [eapply no_save_triple, text_overlay_size |]. intros img1.
  apply saves_result_bind; [eapply no_save_triple, effects_size |]. intros img2.
  apply saves_result_bind; [eapply no_save_triple, triple_now_stamp |]. intros stamp.
  cbv zeta. intros wd. unfold bind at 1, Img.save.
  destruct (save_fails _ img2); reflexivity.
Qed.

Lemma generate_image_saves_result (self : LocalImageGenerator) (prompt : string) (w h : Z)
    (style : string) : saves_result (generate_image self prompt w h style).
Proof.
  unfold generate_image.
  destruct (String.eqb prompt "" || String.eqb (strip prompt) ""); [apply print_none_saves |].
  cbv zeta.
  apply saves_result_bind; [apply no_save_print |]. intros [].
  apply saves_result_bind; [eapply no_save_triple, triple_detect_theme |]. intros t.
  apply saves_result_bind; [eapply no_save_triple, triple_lift_opt |]. intros colors.
  apply saves_result_bind; [apply no_save_print |]. intros [].
  apply saves_result_bind.
  { destruct (String.eqb style "auto"); [eapply no_save_triple, triple_choice | apply no_save_ret]. }
  intros s.
  apply saves_result_bind; [apply no_save_print |]. intros [].
  apply saves_result_try; [apply render_and_save_saves |]. intros e. apply print_none_saves.
Qed.

Lemma batch_loop_saves (self : LocalImageGenerator) (w h : Z) (style : string) (total : Z)
    (prompts : list string) :
  forall i acc world, exists rs,
    out_res (batch_loop self w h style total i prompts acc world) = Ok (acc ++ rs)%list
    /\ save_paths (out_log (batch_loop self w h style total i prompts acc world)) = somes rs.
Proof.
  induction prompts as [| p ps IH]; intros i acc world.
  - exists []. rewrite app_nil_r. split; reflexivity.
  - destruct (generate_image_total self p w h style world) as (r & w1 & l1 & Hg).
    destruct (IH (i + 1) (acc ++ [r])%list w1) as (rs & Hr & Hs).
    exists (r :: rs). simpl batch_loop.
    erewrite bind_ok; [| apply print_run]. simpl.
    erewrite bind_ok; [| exact Hg]. simpl.
    split; [rewrite Hr; now rewrite <- app_assoc |].
    rewrite save_paths_app, Hs.
    pose proof (generate_image_saves_result self p w h style world) as Hgs.
    rewrite Hg in Hgs. simpl in Hgs. rewrite Hgs.
    destruct r; reflexivity.
Qed.

Lemma somes_count (rs : list (option string)) :
  Z.of_nat (List.length (somes rs)) = count_successes rs.
Proof.
  unfold count_successes. f_equal.
  induction rs as [| [p |] rs IH]; simpl; congruence.
Qed.

End Log.
End SaveFacts.

Module ShapeFacts.
Import PyStr Theme Triple PatternClaims ColorClaims PipelineFacts DimensionClaims GradientFacts GradientPixels HexFacts SuccessFacts.
Local Open Scope string_scope.

Lemma range_length (n : Z) : List.length (range n) = Z.to_nat n.
Proof. unfold range. now rewrite length_map, length_seq. Qed.

Lemma for_each_count {A B} (body : A * list B -> Z -> M (A * list B)) :
  (forall s v w r, out_res (body s v w) = Ok r -> List.length (snd r) = S (List.length (snd s))) ->
  forall xs st w r, out_res (for_each xs st body w) = Ok r ->
    List.length (snd r) = (List.length (snd st) + List.length xs)%nat.
Proof.
  intros Hb. induction xs as [| v xs IH]; intros st w r Hr; simpl in Hr.
  - injection Hr as <-. simpl. lia.
  - apply bind_inv in Hr as (s' & Hs' & Hr). apply IH in Hr. apply Hb in Hs'. simpl. lia.
Qed.

Tactic Notation "binv" hyp(H) simple_intropattern(x) ident(Hx) :=
  apply bind_inv in H as (x & Hx & H).

Section Shapes.
Context {P : PIL}.

Lemma geometric_body_shapes (image : raster) (colors : list string) (world : World)
    (pattern_type : string) (img : raster) (d : list (list shape)) (v : Z) (w : World)
    (r : raster * list (list shape)) :
  out_res ((color <- choice colors ;;
    alpha <- randint 50 150 ;;
    overlay <- Img.new_image RGBA (width image) (height image) (mkRGBA 0 0 0 0) ;;
    shapes <-
      (if String.eqb pattern_type "circles" then
         x <- randint 0 (width image) ;; y <- randint 0 (height image) ;; radius <- randint 20 100 ;;
         '(r, g, b) <- Color.hex_rgb color ;;
         ret [EllipseShape (x - radius) (y - radius) (x + radius) (y + radius)
                           (mkRGBA r g b alpha)]
       else if String.eqb pattern_type "rectangles" then
         x1 <- randint 0 (width image / 2) ;; y1 <- randint 0 (height image / 2) ;;
         x2 <- randint x1 (width image) ;; y2 <- randint y1 (height image) ;;
         '(r, g, b) <- Color.hex_rgb color ;;
         ret [RectShape x1 y1 x2 y2 (mkRGBA r g b alpha)]
       else ret []) ;;
    overlay <- draw_shapes overlay shapes ;;
    composed <- Img.alpha_composite (Img.convert RGBA img) overlay ;;
    ret (Img.convert RGB composed, (d ++ [shapes])%list)) w) = Ok r ->
  exists shapes, snd r = (d ++ [shapes])%list /\ (List.length shapes <= 1)%nat /\
    forall s, In s shapes ->
      match s with
      | EllipseShape x0 y0 x1 y1 f =>
          exists cx cy rad, 0 <= cx <= width image /\ 0 <= cy <= height image
            /\ 20 <= rad <= 100 /\ x0 = cx - rad /\ y0 = cy - rad /\ x1 = cx + rad
            /\ y1 = cy + rad /\ fill_from colors world f
      | RectShape x0 y0 x1 y1 f =>
          0 <= x0 <= width image / 2 /\ 0 <= y0 <= height image / 2
            /\ x0 <= x1 <= width image /\ y0 <= y1 <= height image /\ fill_from colors world f
      end.
Proof.
  intros H.
  binv H color Hc. pose proof (triple_res _ _ _ _ (triple_choice colors) Hc) as Hcin.
  binv H alpha Ha. pose proof (triple_res _ _ _ _ (triple_randint 50 150) Ha) as Hab.
  binv H ov Hov. binv H shapes Hs. binv H ov2 Hov2. binv H comp Hcomp.
  injection H as <-. exists shapes. split; [reflexivity |]. cbv beta in *.
  destruct (String.eqb pattern_type "circles");
    [| destruct (String.eqb pattern_type "rectangles")].
  - binv Hs x Hx. pose proof (triple_res _ _ _ _ (triple_randint _ _) Hx) as Hxb.
    binv Hs y Hy. pose proof (triple_res _ _ _ _ (triple_randint _ _) Hy) as Hyb.
    binv Hs rad Hr. pose proof (triple_res _ _ _ _ (triple_randint _ _) Hr) as Hrb.
    binv Hs [[cr0 cg0] cb0] Hh. injection Hs as <-. cbv beta in *.
    split; [simpl; lia |]. intros s [<- | []].
    exists x, y, rad. do 7 (split; [lia |]). split; [simpl; lia |].
    exists color. split; [exact Hcin |]. simpl. rewrite <- Hh. apply hex_rgb_indep.
  - binv Hs x1 Hx1. pose proof (triple_res _ _ _ _ (triple_randint _ _) Hx1) as Hx1b.
    binv Hs y1 Hy1. pose proof (triple_res _ _ _ _ (triple_randint _ _) Hy1) as Hy1b.
    binv Hs x2 Hx2. pose proof (triple_res _ _ _ _ (triple_randint _ _) Hx2) as Hx2b.
    binv Hs y2 Hy2. pose proof (triple_res _ _ _ _ (triple_randint _ _) Hy2) as Hy2b.
    binv Hs [[cr0 cg0] cb0] Hh. injection Hs as <-. cbv beta in *.
    split; [simpl; lia |]. intros s [<- | []].
    do 4 (split; [lia |]). split; [simpl; lia |].
    exists color. split; [exact Hcin |]. simpl. rewrite <- Hh. apply hex_rgb_indep.
  - injection Hs as <-. split; [simpl; lia |]. intros s [].
Qed.

End Shapes.
End ShapeFacts.

Module GradientExtras.
Import PyStr Triple PatternClaims GradientFacts GradientPixels ColorClaims PipelineFacts.



















End GradientExtras.

Module ColorExtras.
Import PyStr Triple PatternClaims ColorClaims GradientPixels HexFacts.









(** [blend_colors] raises ValueError when one of the two colours has
    at most five characters: [int(color[5:7], 16)] reads an empty
    string. *)
Lemma blend_colors_short (c1 c2 : string) (ratio : R) (w : World) :
  (String.length c1 <= 5 \/ String.length c2 <= 5)%nat ->
  out_res (Color.blend_colors c1 c2 ratio w) = Err ValueError.
Proof.
  intros Hl.
  assert (Hshort : forall c wd, (String.length c <= 5)%nat -> out_res (Color.hex_rgb c wd) = Err ValueError).
  { intros c wd Hc. unfold Color.hex_rgb, lift_opt, bind, ret, raise.
    replace (slice 5 7 c) with ""%string by (symmetry; apply substring_past_end; exact Hc).
    change (PyInt.int16 "") with (@None Z).
    repeat (destruct (PyInt.int16 _)); reflexivity. }
  unfold Color.blend_colors.
  destruct Hl as [Hl | Hl].
  - rewrite (bind_err _ _ _ _ (Hshort c1 w Hl)). reflexivity.
  - destruct (hex_rgb_res c1 w) as [(r & g & b & E) | E].
    + rewrite (bind_res_ok _ _ _ _ E). cbv beta iota.
      rewrite (bind_err _ _ _ _ (Hshort c2 _ Hl)). reflexivity.
    + rewrite (bind_err _ _ _ _ E). reflexivity.
Qed.


Lemma blend_colors_short_witness :
  (String.length "#1234" <= 5 \/ String.length "#228B22" <= 5)%nat
  /\ out_res (Color.blend_colors "#1234" "#228B22" (/ 2) (const_world 0)) = Err ValueError.
Proof.
  split; [left; simpl; lia |].
  apply blend_colors_short. left. simpl. lia.
Defined.

(** A channel [hex_rgb] reads with [int(s, 16)] from a two-character
    slice lies in [-15, 255]: Python also accepts a sign ("-f" is -15),
    so a channel may be negative but never below -15. *)
Theorem hex_rgb_channel_range (c : string) (w : World) (r g b : Z) :
  out_res (Color.hex_rgb c w) = Ok (r, g, b) ->
  -15 <= r <= 255 /\ -15 <= g <= 255 /\ -15 <= b <= 255.
Proof.
  unfold Color.hex_rgb, lift_opt, bind, ret, raise.
  destruct (PyInt.int16 (slice 1 3 c)) as [r' |] eqn:Er; [| discriminate].
  destruct (PyInt.int16 (slice 3 5 c)) as [g' |] eqn:Eg; [| discriminate].
  destruct (PyInt.int16 (slice 5 7 c)) as [b' |] eqn:Eb; [| discriminate].
  simpl. intros H. injection H as <- <- <-.
  split; [| split]; eapply int16_short_range; try eassumption; apply substring_length_le.
Qed.

Lemma hex_rgb_channel_range_witness :
  out_res (Color.hex_rgb "#-1-1FF" (const_world 0)) = Ok (-1, -1, 255)
  /\ -15 <= -1 <= 255 /\ -15 <= -1 <= 255 /\ -15 <= 255 <= 255.
Proof.
  split; [reflexivity |].
  exact (hex_rgb_channel_range "#-1-1FF" (const_world 0) (-1) (-1) 255 eq_refl).
Defined.


End ColorExtras.

Module StageExtras.
Import PyStr Theme Triple PatternClaims ColorClaims PipelineFacts DimensionClaims GradientFacts
       GradientPixels HexFacts SuccessFacts AbstractSuccess StageSuccess GenerateSuccess SaveFacts ShapeFacts.
Local Open Scope string_scope.

Section Stages.
Context {P : PIL}.

(** [add_geometric_patterns] raises nothing when the raster size is not
    negative and [colors] is a non-empty list of "#RRGGBB" colours; the
    raster it returns has the size of the input. *)
Theorem add_geometric_patterns_total (image : raster) (colors : list string) (world : World)
    (Hw : 0 <= width image) (Hh : 0 <= height image) (Hne : colors <> [])
    (Hv : forallb Color.valid_hex colors = true) :
  exists img, out_res (add_geometric_patterns image colors world) = Ok img /\ same_size img image.
Proof.
  assert (succeeds (add_geometric_patterns image colors) (fun img => same_size img image)) as S.
  { unfold add_geometric_patterns.
    eapply s_bind; [apply geometric_traced_succeeds; assumption |].
    intros r Hr. now apply s_ret. }
  exact (S world).
Qed.

(** [add_geometric_patterns] makes 5 to 15 overlays and draws at most
    one shape on each.  A circle has its centre in the raster, a radius
    of 20 to 100 and the box [x - r, y - r, x + r, y + r]; a rectangle
    has its first corner in the upper-left quarter and its second corner
    between the first and the lower-right corner.  Each fill has an alpha
    of 50 to 150 and the red, green and blue of a colour of the list. *)
Theorem add_geometric_patterns_shapes (image : raster) (colors : list string) (world : World) :
  match out_res (add_geometric_patterns_traced image colors world) with
  | Ok (_, drawn) =>
      (5 <= List.length drawn <= 15)%nat /\
      forall shapes, In shapes drawn -> (List.length shapes <= 1)%nat /\
        forall s, In s shapes ->
          match s with
          | EllipseShape x0 y0 x1 y1 f =>
              exists cx cy rad, 0 <= cx <= width image /\ 0 <= cy <= height image
                /\ 20 <= rad <= 100 /\ x0 = cx - rad /\ y0 = cy - rad /\ x1 = cx + rad
                /\ y1 = cy + rad /\ fill_from colors world f
          | RectShape x0 y0 x1 y1 f =>
              0 <= x0 <= width image / 2 /\ 0 <= y0 <= height image / 2
                /\ x0 <= x1 <= width image /\ y0 <= y1 <= height image /\ fill_from colors world f
          end
  | Err _ => True
  end.
Proof.
  destruct (out_res (add_geometric_patterns_traced image colors world)) as [[img drawn] | e] eqn:E;
    [| exact I].
  unfold add_geometric_patterns_traced in E. cbv zeta in E.
  binv E pat Hpat. binv E n Hn.
  pose proof (triple_res _ _ _ _ (triple_randint 5 15) Hn) as Hnb. cbv beta in Hnb.
  split.
  - pose proof E as Hlen. eapply for_each_count in Hlen.
    + simpl in Hlen. rewrite range_length in Hlen. lia.
    + intros [img0 d0] v w r Hr. apply (geometric_body_shapes image colors world _ _ _ v) in Hr as (shapes & -> & _).
      simpl. rewrite length_app. simpl. lia.
  - refine (for_each_inv
      (fun st => forall shapes, In shapes (snd st) -> (List.length shapes <= 1)%nat /\
        forall s, In s shapes ->
          match s with
          | EllipseShape x0 y0 x1 y1 f =>
              exists cx cy rad, 0 <= cx <= width image /\ 0 <= cy <= height image
                /\ 20 <= rad <= 100 /\ x0 = cx - rad /\ y0 = cy - rad /\ x1 = cx + rad
                /\ y1 = cy + rad /\ fill_from colors world f
          | RectShape x0 y0 x1 y1 f =>
              0 <= x0 <= width image / 2 /\ 0 <= y0 <= height image / 2
                /\ x0 <= x1 <= width image /\ y0 <= y1 <= height image /\ fill_from colors world f
          end) _ _ _ _ _ _ _ E).
    + intros [img0 d0] v w r Hinv Hr.
      apply (geometric_body_shapes image colors world _ _ _ v) in Hr as (shapes & Hd & Hl & Hs). rewrite Hd.
      intros ss Hss. apply in_app_or in Hss as [Hss | [<- | []]]; [apply Hinv, Hss |].
      split; [exact Hl | exact Hs].
    + intros ss [].
Qed.

(** [add_geometric_patterns] with an empty colour list raises IndexError:
    the loop runs at least five times and [random.choice([])] raises. *)
Theorem add_geometric_patterns_empty_colors (image : raster) (world : World) :
  out_res (add_geometric_patterns image [] world) = Err IndexError.
Proof.
  unfold add_geometric_patterns. apply bind_err.
  unfold add_geometric_patterns_traced. cbv zeta.
  rewrite (bind_res_ok _ _ _ _ (f_equal (@out_res _) (pattern_choice world))).
  destruct (s_randint 5 15 ltac:(lia) (out_world (choice ["circles"; "rectangles"; "triangles"; "lines"] world)))
    as (n & Hn & Hnb).
  rewrite (bind_res_ok _ _ _ _ Hn).
  pose proof (range_nonempty n ltac:(cbv beta in Hnb; lia)) as Hne.
  destruct (range n) as [| v vs]; [contradiction |]. simpl for_each.
  apply bind_err. reflexivity.
Qed.



End Stages.

Lemma add_geometric_patterns_total_witness :
  exists img, out_res (add_geometric_patterns (P := plain_pil)
                 (mkRaster 40 30 RGB (fun _ _ => rgb 34 139 34)) ["#32CD32"; "#90EE90"]
                 (const_world 0)) = Ok img
    /\ same_size img (mkRaster 40 30 RGB (fun _ _ => rgb 34 139 34)).
Proof.
  exact (add_geometric_patterns_total (P := plain_pil) (mkRaster 40 30 RGB (fun _ _ => rgb 34 139 34))
           ["#32CD32"; "#90EE90"] (const_world 0) ltac:(simpl; lia) ltac:(simpl; lia)
           ltac:(discriminate) eq_refl).
Defined.


End StageExtras.

Module PipelineExtras.
Import PyStr Theme Triple PatternClaims ColorClaims PipelineFacts DimensionClaims GradientFacts
       GradientPixels HexFacts SuccessFacts AbstractSuccess StageSuccess GenerateSuccess SaveFacts ShapeFacts.
Local Open Scope string_scope.



(** [generate_image] writes a file exactly when it returns a path, and
    then only that file: the paths of the save events of a run are [[p]]
    when it returns [Some p] and none otherwise. *)
Theorem generate_image_saves_iff_some {P : PIL} (self : LocalImageGenerator) (prompt : string)
    (w h : Z) (style : string) (world : World) :
  save_paths (out_log (generate_image self prompt w h style world))
  = match out_res (generate_image self prompt w h style world) with
    | Ok (Some p) => [p]
    | _ => []
    end.
Proof. exact (generate_image_saves_result self prompt w h style world). Qed.

Section Unknown.
Context {P : PIL}.


End Unknown.


Section Batch.
Context {P : PIL}.

(** [batch_generate] returns one result per prompt; the files written
    are the paths of the [Some] results, in order, and the count printed
    after "Successful: " is the number of files written. *)
Theorem batch_generate_saved_files (self : LocalImageGenerator) (prompts : list string) (w h : Z)
    (style : string) (world : World) :
  exists results, out_res (batch_generate self prompts w h style world) = Ok results
    /\ List.length results = List.length prompts
    /\ save_paths (out_log (batch_generate self prompts w h style world)) = somes results
    /\ In (EvPrint ("Successful: "
             ++ Z_to_string (Z.of_nat (List.length (save_paths (out_log (batch_generate self prompts w h style world)))))
             ++ "/" ++ Z_to_string (Z.of_nat (List.length prompts))))
          (out_log (batch_generate self prompts w h style world)).
Proof.
  destruct (batch_loop_saves self w h style (Z.of_nat (List.length prompts)) prompts 1 [] world)
    as (rs & Hr & Hs).
  destruct (batch_loop_spec self w h style (Z.of_nat (List.length prompts)) prompts 1 [] world)
    as (rs' & Hr' & Hlen & _).
  rewrite Hr in Hr'. injection Hr' as <-.
  destruct (batch_loop self w h style (Z.of_nat (List.length prompts)) 1 prompts [] world)
    as [res w1 l1] eqn:EB. simpl in Hr, Hs. subst res.
  unfold batch_generate. cbv zeta.
  erewrite bind_ok; [| apply print_run]. cbv beta.
  erewrite bind_ok; [| exact EB]. cbv beta.
  erewrite bind_ok; [| apply print_run]. cbv beta.
  erewrite bind_ok; [| apply print_run]. cbv beta.
  exists rs. cbn [out_res out_log]. split; [reflexivity | split; [exact Hlen |]].
  assert (forall s, save_paths [EvPrint s] = []) as Hp by reflexivity.
  cbn [ret out_log]. rewrite !save_paths_app, Hs, !Hp, !app_nil_l, !app_nil_r.
  split; [reflexivity |].
  rewrite somes_count. repeat (apply in_or_app; right). now left.
Qed.

End Batch.
End PipelineExtras.
